(** * nova-tag: gate controller, tag validator and antenna supervisor

    A shallow embedding of the TypeScript sources of nova-tag:
    - [Gate]: [GateController] (src/unnamed/part_009, gate-controller.ts);
    - [Validator]: [TagValidator] (src/src/core/tag-validator.ts, lines 1-313);
    - [Antenna]: the module-level session variables and the socket event
      handlers of [AntennaManager.connectToAntenna]
      (src/src/core/tag-validator.ts, lines 315-621).

    JavaScript strings are modelled as Rocq [string]s; timers as records of
    the time they were armed and their delay in milliseconds; socket writes
    as the list of frames written, oldest first. *)

From Stdlib Require Import String Ascii ZArith List Bool Lia.
Import ListNotations.

Local Open Scope Z_scope.

(* ------------------------------------------------------------------ *)
(** ** GateController *)

Module Gate.

(** [enum GateState] of gate-controller.ts. *)
Inductive GateState := CLOSED | OPENING | OPEN | CLOSING.

Definition GateState_eqb (a b : GateState) : bool :=
  match a, b with
  | CLOSED, CLOSED | OPENING, OPENING | OPEN, OPEN | CLOSING, CLOSING => true
  | _, _ => false
  end.

(** A [setTimeout] handle: armed at time [armedAt] for [delay] ms. *)
Record Timer := mkTimer { armedAt : Z; delay : Z }.

Definition fireTime (t : Timer) : Z := armedAt t + delay t.

(** The fields of a [GateController] instance.  [settleTimers] are the
    one-second timers armed by [closeGate] that move CLOSING to CLOSED;
    [socketDestroyed] is [this.socket.destroyed]; [written] is what has
    been written to the socket. *)
Record GateController := mkGC {
  state : GateState;
  openTimer : option Timer;
  settleTimers : list Timer;
  relayOpenCmd : string;
  relayCloseCmd : string;
  socketDestroyed : bool;
  written : list string;
  openDurationMs : Z
}.

Definition RELAY_OPEN_CMD : string := "CFFF007702020AF27C".
Definition RELAY_CLOSE_CMD : string := "CFFF0077020100774E".

(** [constructor]: [openDurationMs = options.openDurationMs || 8000]
    ([0] is falsy, as is an absent option). *)
Definition newGateController (openDuration : option Z) (destroyed : bool)
  : GateController :=
  {| state := CLOSED; openTimer := None; settleTimers := [];
     relayOpenCmd := RELAY_OPEN_CMD; relayCloseCmd := RELAY_CLOSE_CMD;
     socketDestroyed := destroyed; written := [];
     openDurationMs := match openDuration with
                       | Some d => if d =? 0 then 8000 else d
                       | None => 8000
                       end |}.

(** [sendCommand]: throws ([None]) when the socket is destroyed, otherwise
    writes the frame. *)
Definition sendCommand (cmd : string) (g : GateController)
  : option GateController :=
  if socketDestroyed g then None
  else Some {| state := state g; openTimer := openTimer g;
               settleTimers := settleTimers g;
               relayOpenCmd := relayOpenCmd g; relayCloseCmd := relayCloseCmd g;
               socketDestroyed := socketDestroyed g;
               written := written g ++ [cmd];
               openDurationMs := openDurationMs g |}.

(** [openGate(autoCloseTime?)] called at time [now]: the state guard, then
    inside [try] the write, OPENING, the auto-close timer for
    [autoCloseTime ?? this.openDurationMs], and OPEN.  A throw of
    [sendCommand] is caught and gives [false] with nothing changed. *)
Definition openGate (autoCloseTime : option Z) (now : Z) (g : GateController)
  : bool * GateController :=
  if negb (GateState_eqb (state g) CLOSED) then (false, g)
  else match sendCommand (relayOpenCmd g) g with
       | None => (false, g)
       | Some g1 =>
           (true, {| state := OPEN;
                     openTimer := Some (mkTimer now
                                    match autoCloseTime with
                                    | Some t => t
                                    | None => openDurationMs g1
                                    end);
                     settleTimers := settleTimers g1;
                     relayOpenCmd := relayOpenCmd g1;
                     relayCloseCmd := relayCloseCmd g1;
                     socketDestroyed := socketDestroyed g1;
                     written := written g1;
                     openDurationMs := openDurationMs g1 |})
       end.

(** [closeGate()] called at time [now]: the state guard, then the write,
    CLOSING, the one-second settle timer, and the auto-close timer
    cleared. *)
Definition closeGate (now : Z) (g : GateController) : bool * GateController :=
  if negb (GateState_eqb (state g) OPEN) then (false, g)
  else match sendCommand (relayCloseCmd g) g with
       | None => (false, g)
       | Some g1 =>
           (true, {| state := CLOSING;
                     openTimer := None;
                     settleTimers := settleTimers g1 ++ [mkTimer now 1000];
                     relayOpenCmd := relayOpenCmd g1;
                     relayCloseCmd := relayCloseCmd g1;
                     socketDestroyed := socketDestroyed g1;
                     written := written g1;
                     openDurationMs := openDurationMs g1 |})
       end.

(** When the pending auto-close timer fires, if any. *)
Definition closesAt (g : GateController) : option Z :=
  option_map fireTime (openTimer g).

(** The gate side of [AntennaManager.handleTagRead] at time [now], given
    the [isValid] of the validation result: an authorized tag calls
    [gateController.openGate()] without an override. *)
Definition handleTagReadGate (isValid : bool) (now : Z) (g : GateController)
  : GateController :=
  if isValid then snd (openGate None now g) else g.

(** [getState()] *)
Definition getState (g : GateController) : GateState := state g.

(** The auto-close timer armed by [openGate] firing at [now]: its callback
    is [this.closeGate()].  The handle stays in [this.openTimer] unless that
    call clears it. *)
Definition autoCloseFires (now : Z) (g : GateController) : bool * GateController :=
  closeGate now g.

(** The earliest one-second timer armed by [closeGate] firing: its
    callback sets [this.state = GateState.CLOSED], whatever the state. *)
Definition settleFires (g : GateController) : GateController :=
  match settleTimers g with
  | [] => g
  | _ :: rest =>
      {| state := CLOSED; openTimer := openTimer g; settleTimers := rest;
         relayOpenCmd := relayOpenCmd g; relayCloseCmd := relayCloseCmd g;
         socketDestroyed := socketDestroyed g; written := written g;
         openDurationMs := openDurationMs g |}
  end.

(** The two commands of a controller, manual or from its auto-close timer
    (whose callback is [closeGate]). *)
Inductive GateOp :=
| GOpen (autoCloseTime : option Z) (now : Z)
| GClose (now : Z).

Definition applyGateOp (g : GateController) (op : GateOp) : GateController :=
  match op with
  | GOpen ov now => snd (openGate ov now g)
  | GClose now => snd (closeGate now g)
  end.

Definition runGate (g : GateController) (ops : list GateOp) : GateController :=
  fold_left applyGateOp ops g.

(** The controller's commands together with its one-second settle timer
    firing. *)
Inductive GateEvent :=
| GEOpen (autoCloseTime : option Z) (now : Z)
| GEClose (now : Z)
| GESettle.

Definition applyGateEvent (g : GateController) (e : GateEvent) : GateController :=
  match e with
  | GEOpen ov now => snd (openGate ov now g)
  | GEClose now => snd (closeGate now g)
  | GESettle => settleFires g
  end.

Definition runGateEvents (g : GateController) (es : list GateEvent) : GateController :=
  fold_left applyGateEvent es g.

End Gate.

(* ------------------------------------------------------------------ *)
(** ** TagValidator *)

Module Validator.

(** [interface ValidationResult]; [reason] is always set by the code. *)
Record ValidationResult := mkVR {
  isValid : bool;
  tag : string;
  reason : string;
  timestamp : Z
}.

(** [interface TagCache]. *)
Record TagCache := mkTC { c_tag : string; validatedAt : Z; c_isValid : bool }.

(** A JavaScript [Map<string, TagCache>]: its entries in insertion order.
    [set] of a present key replaces the value in place (the key keeps its
    position), [set] of a new key appends, [delete] removes the key. *)
Definition CacheMap := list (string * TagCache).

Fixpoint map_get (k : string) (m : CacheMap) : option TagCache :=
  match m with
  | [] => None
  | (k', v) :: r => if String.eqb k k' then Some v else map_get k r
  end.

Fixpoint map_set (k : string) (v : TagCache) (m : CacheMap) : CacheMap :=
  match m with
  | [] => [(k, v)]
  | (k', v') :: r =>
      if String.eqb k k' then (k, v) :: r else (k', v') :: map_set k v r
  end.

Definition map_delete (k : string) (m : CacheMap) : CacheMap :=
  filter (fun p => negb (String.eqb (fst p) k)) m.

Definition map_keys (m : CacheMap) : list string := map fst m.

(** The fields of a [TagValidator] instance. *)
Record TagValidator := mkTV {
  tagCache : CacheMap;
  cacheTimeout : Z;
  apiBaseUrl : string;
  apiTimeout : Z
}.

Definition newTagValidator : TagValidator :=
  {| tagCache := []; cacheTimeout := 300000;
     apiBaseUrl := "http://localhost:3001"; apiTimeout := 5000 |}.

Definition with_cache (tv : TagValidator) (m : CacheMap) : TagValidator :=
  {| tagCache := m; cacheTimeout := cacheTimeout tv;
     apiBaseUrl := apiBaseUrl tv; apiTimeout := apiTimeout tv |}.

(** Character classes of the two regular expressions. *)
Definition in_range (lo hi : ascii) (c : ascii) : bool :=
  (nat_of_ascii lo <=? nat_of_ascii c)%nat && (nat_of_ascii c <=? nat_of_ascii hi)%nat.

(** [/[a-fA-F0-9]/] *)
Definition isHexChar (c : ascii) : bool :=
  in_range "a" "f" c || in_range "A" "F" c || in_range "0" "9" c.

(** [/[A-F0-9]/] *)
Definition isUpperHexChar (c : ascii) : bool :=
  in_range "A" "F" c || in_range "0" "9" c.

(** [String.prototype.toUpperCase] on one character: a-z to A-Z. *)
Definition toUpperChar (c : ascii) : ascii :=
  if in_range "a" "z" c then ascii_of_nat (nat_of_ascii c - 32) else c.

(** [tag.replace(/[^a-fA-F0-9]/g, '')] *)
Fixpoint stripNonHex (s : string) : string :=
  match s with
  | EmptyString => EmptyString
  | String c r => if isHexChar c then String c (stripNonHex r) else stripNonHex r
  end.

(** [.toUpperCase()] *)
Fixpoint toUpperCase (s : string) : string :=
  match s with
  | EmptyString => EmptyString
  | String c r => String (toUpperChar c) (toUpperCase r)
  end.

Definition sanitizeTag (s : string) : string := toUpperCase (stripNonHex s).

Fixpoint all_chars (p : ascii -> bool) (s : string) : bool :=
  match s with
  | EmptyString => true
  | String c r => p c && all_chars p r
  end.

(** [/^[A-F0-9]{8,16}$/.test(tag) && tag.length % 2 === 0] *)
Definition isValidTagFormat (t : string) : bool :=
  all_chars isUpperHexChar t
  && (8 <=? String.length t)%nat && (String.length t <=? 16)%nat
  && Nat.even (String.length t).

Definition BAD_FORMAT_REASON : string := "Formato de TAG inválido".

(** [getCachedValidation(tag)] at time [now]: an entry older than
    [cacheTimeout] is deleted and reported missing. *)
Definition getCachedValidation (t : string) (now : Z) (tv : TagValidator)
  : option TagCache * TagValidator :=
  match map_get t (tagCache tv) with
  | None => (None, tv)
  | Some c =>
      if now - validatedAt c >? cacheTimeout tv
      then (None, with_cache tv (map_delete t (tagCache tv)))
      else (Some c, tv)
  end.

(** What the [fetch] of [POST /access/verify] settles to. *)
Inductive VerifyResponse :=
| VerifyOk (authorized : option bool) (reasonField : option string)
    (** [response.ok], body [{authorized?, reason?}] *)
| VerifyNotOk (status : Z)      (** [!response.ok] *)
| VerifyBadBody                 (** [response.json()] rejects *)
| VerifyAborted                 (** the [apiTimeout] abort fired *)
| VerifyNetError (msg : string). (** transport error *)

(** [validateViaAPI(tag)]: [inr] is the returned result, [inl] the message
    of the error it throws. *)
Definition validateViaAPI (t : string) (now : Z) (resp : VerifyResponse)
  : string + ValidationResult :=
  match resp with
  | VerifyOk auth r =>
      let ok := match auth with Some true => true | _ => false end in
      inr {| isValid := ok; tag := t;
             reason := if ok then "TAG autorizada pela API"
                       else match r with
                            | Some x => if String.eqb x "" then "TAG não autorizada" else x
                            | None => "TAG não autorizada"
                            end;
             timestamp := now |}
  | VerifyNotOk st => inl "API error"%string
  | VerifyBadBody => inl "Unexpected end of JSON input"%string
  | VerifyAborted => inl "Timeout na consulta à API"%string
  | VerifyNetError m => inl m
  end.

(** [updateCache(tag, isValid)] at time [now]: set, then drop the first key
    in insertion order when the size exceeds 100. *)
Definition updateCache (t : string) (ok : bool) (now : Z) (m : CacheMap)
  : CacheMap :=
  let m1 := map_set t (mkTC t now ok) m in
  if (100 <? length m1)%nat
  then match m1 with
       | [] => m1
       | (oldestKey, _) :: _ => map_delete oldestKey m1
       end
  else m1.

(** The outcome of one [validateTag] call: the result, the validator after
    it, and how many [fetch] calls to the authorization service it made. *)
Record Outcome := mkOutcome {
  result : ValidationResult;
  validator : TagValidator;
  apiCalls : nat
}.

(** [validateTag(tag)] at time [now]; [resp] is what the verification
    [fetch] settles to if it is made. *)
Definition validateTag (raw : string) (now : Z) (resp : VerifyResponse)
  (tv : TagValidator) : Outcome :=
  let st := sanitizeTag raw in
  if negb (isValidTagFormat st) then
    mkOutcome {| isValid := false; tag := st; reason := BAD_FORMAT_REASON;
                 timestamp := now |} tv 0
  else
    let (cached, tv1) := getCachedValidation st now tv in
    match cached with
    | Some c =>
        mkOutcome {| isValid := c_isValid c; tag := st;
                     reason := if c_isValid c then "Cache hit - válida"
                               else "Cache hit - inválida";
                     timestamp := now |} tv1 0
    | None =>
        match validateViaAPI st now resp with
        | inr r =>
            mkOutcome r (with_cache tv1 (updateCache st (isValid r) now (tagCache tv1))) 1
        | inl msg =>
            mkOutcome {| isValid := false; tag := raw;
                         reason := ("Erro na validação: " ++ msg)%string;
                         timestamp := now |} tv1 1
        end
    end.

(** What the [fetch] of [POST /access/register] settles to. *)
Inductive RegisterResponse :=
| RegisterOk
| RegisterNotOk (status : Z)
| RegisterError (msg : string).

(** [registerAccess(tag, antennaId)]: the whole body is inside [try]. *)
Definition registerAccess (t antennaId : string) (resp : RegisterResponse)
  (tv : TagValidator) : bool * TagValidator :=
  match resp with
  | RegisterOk => (true, tv)
  | RegisterNotOk _ => (false, tv)
  | RegisterError _ => (false, tv)
  end.

(** [invalidateTag(tag)] *)
Definition invalidateTag (raw : string) (tv : TagValidator) : bool * TagValidator :=
  let st := sanitizeTag raw in
  (match map_get st (tagCache tv) with Some _ => true | None => false end,
   with_cache tv (map_delete st (tagCache tv))).

(** [clearCache()] *)
Definition clearCache (tv : TagValidator) : TagValidator := with_cache tv [].

(** [cleanExpiredCache()] at time [now]: collect the expired keys, then
    delete them one by one. *)
Definition cleanExpiredCache (now : Z) (tv : TagValidator) : TagValidator :=
  let expiredKeys :=
    map fst (filter (fun p => now - validatedAt (snd p) >? cacheTimeout tv)
                    (tagCache tv)) in
  with_cache tv (fold_left (fun m k => map_delete k m) expiredKeys (tagCache tv)).

(** Whether the verification [fetch] settled with an ok response whose body
    parsed, i.e. [validateViaAPI] returned instead of throwing. *)
Definition verifyReturned (resp : VerifyResponse) : bool :=
  match resp with VerifyOk _ _ => true | _ => false end.

(** The public operations of a [TagValidator] that touch its cache. *)
Inductive CacheOp :=
| OpValidate (raw : string) (now : Z) (resp : VerifyResponse)
| OpInvalidate (raw : string)
| OpClear
| OpCleanExpired (now : Z).

Definition applyOp (tv : TagValidator) (op : CacheOp) : TagValidator :=
  match op with
  | OpValidate raw now resp => validator (validateTag raw now resp tv)
  | OpInvalidate raw => snd (invalidateTag raw tv)
  | OpClear => clearCache tv
  | OpCleanExpired now => cleanExpiredCache now tv
  end.

Definition runValidator (tv : TagValidator) (ops : list CacheOp) : TagValidator :=
  fold_left applyOp ops tv.

(** [getCacheStats()]: [{size, timeout}]. *)
Definition getCacheStats (tv : TagValidator) : nat * Z :=
  (length (tagCache tv), cacheTimeout tv).

End Validator.

(* ------------------------------------------------------------------ *)
(** ** AntennaManager: session variables and socket event handlers *)

Module Antenna.

(** The module-level [enum GateState] of antenna-manager.ts, distinct from
    the one of gate-controller.ts. *)
Inductive GateState := CLOSED | OPENING | OPEN | CLOSING.

Definition GateState_eqb (a b : GateState) : bool :=
  match a, b with
  | CLOSED, CLOSED | OPENING, OPENING | OPEN, OPEN | CLOSING, CLOSING => true
  | _, _ => false
  end.

(** The environment constants read at module load. *)
Record Config := mkConfig {
  HEALTHCHECK_TIMEOUT : Z;
  ATTEMPT_RECONNECT : Z;
  GATE_TIMEOUT_TO_CLOSE : Z
}.

(** [Number(process.env.X) || d]: an unset, unparsable or zero value gives
    the default. *)
Definition envNumber (v : option Z) (d : Z) : Z :=
  match v with Some n => if n =? 0 then d else n | None => d end.

Definition loadConfig (hc attempts gate : option Z) : Config :=
  {| HEALTHCHECK_TIMEOUT := envNumber hc 10000;
     ATTEMPT_RECONNECT := envNumber attempts 3;
     GATE_TIMEOUT_TO_CLOSE := envNumber gate 5000 |}.

Definition HEALTHCHECK_CMD : string := "CFFF0050000726".

(** The module-level [let] variables, the process, and the two global
    instances [gateController] and [tagValidator]. *)
Record Session := mkSession {
  healthCheckWaitResponse : bool;
  gateState : GateState;
  closeGateTimeout : option Gate.Timer;
  isReconnecting : bool;
  isShuttingDown : bool;
  connectionRetry : Z;
  exited : bool;
  gateController : Gate.GateController;
  tagValidator : Validator.TagValidator
}.

(** What a handler does outside the session variables. *)
Inductive Action :=
| AWrite (cmd : string)          (** [socket.write] through the controller *)
| ADestroy                       (** [setImmediate(() => socket.destroy())] *)
| AArmGrace                      (** the 3 s healthcheck grace timer *)
| AScheduleReconnect             (** [setTimeout(connectToAntenna, 3000)] *)
| AExit                          (** [process.exit(1)] *)
| AHandleTagRead (tagNumber : string). (** [this.handleTagRead(tag, name)] *)

(** The events the handlers react to.  [EvHcWritten ok] is the write
    callback of the healthcheck frame; [EvTagValidated ok now] is the
    continuation of [handleTagRead] once [validateTag] (and, for an
    authorized tag, [registerAccess]) has settled with [isValid = ok]. *)
Inductive Event :=
| EvReconnectTimer
| EvConnect
| EvData (hexData : string)
| EvTimeout
| EvHcWritten (ok : bool)
| EvHcGrace
| EvClose
| EvTagValidated (ok : bool) (now : Z).

(** JavaScript [String.prototype.slice(start, end)] with negative indices
    counted from the end. *)
Definition js_slice (s : string) (start stop : Z) : string :=
  let len := Z.of_nat (String.length s) in
  let rel i := if i <? 0 then Z.max (len + i) 0 else Z.min i len in
  let from := rel start in
  let to := rel stop in
  if from <? to then substring (Z.to_nat from) (Z.to_nat (to - from)) s
  else EmptyString.

(** The classification made by the [data] handler, in its order. *)
Inductive Frame :=
| HealthcheckAck
| FilterAck (success : bool)
| GateClosedAck
| GateOpenedAck
| TagRead (tagNumber : string)
| Unknown.

Definition classify (hexData : string) : Frame :=
  if String.prefix "cf000050" hexData then HealthcheckAck
  else if String.prefix "cf000073" hexData then
    FilterAck (String.prefix "cf000073020001" hexData)
  else if String.prefix "cf000077020001" hexData then GateClosedAck
  else if String.prefix "cf00007703" hexData then GateOpenedAck
  else if String.prefix "cf00000112" hexData then
    TagRead ("0" ++ js_slice hexData (-13) (-4))%string
  else Unknown.

Definition set_hc (s : Session) (b : bool) : Session :=
  {| healthCheckWaitResponse := b; gateState := gateState s;
     closeGateTimeout := closeGateTimeout s; isReconnecting := isReconnecting s;
     isShuttingDown := isShuttingDown s; connectionRetry := connectionRetry s;
     exited := exited s; gateController := gateController s;
     tagValidator := tagValidator s |}.

(** One event handled on the session.  Once the process has exited no
    handler runs. *)
Definition step (cfg : Config) (s : Session) (e : Event)
  : Session * list Action :=
  if exited s then (s, []) else
  match e with
  | EvReconnectTimer =>
      (* connectToAntenna(): new socket, new global instances *)
      ({| healthCheckWaitResponse := healthCheckWaitResponse s;
          gateState := gateState s; closeGateTimeout := closeGateTimeout s;
          isReconnecting := isReconnecting s; isShuttingDown := isShuttingDown s;
          connectionRetry := connectionRetry s; exited := false;
          gateController :=
            Gate.newGateController (Some (GATE_TIMEOUT_TO_CLOSE cfg)) false;
          tagValidator := Validator.newTagValidator |}, [])
  | EvConnect =>
      ({| healthCheckWaitResponse := false; gateState := CLOSED;
          closeGateTimeout := None; isReconnecting := false;
          isShuttingDown := isShuttingDown s;
          connectionRetry := connectionRetry s; exited := false;
          gateController := gateController s;
          tagValidator := tagValidator s |},
       [AWrite Gate.RELAY_CLOSE_CMD])
  | EvData hexData =>
      let s1 := {| healthCheckWaitResponse := false; gateState := gateState s;
                   closeGateTimeout := closeGateTimeout s;
                   isReconnecting := isReconnecting s;
                   isShuttingDown := isShuttingDown s;
                   connectionRetry := 0; exited := false;
                   gateController := gateController s;
                   tagValidator := tagValidator s |} in
      match classify hexData with
      | HealthcheckAck => (s1, [])
      | FilterAck true => (s1, [])
      | FilterAck false => (s1, [ADestroy])
      | GateClosedAck =>
          ({| healthCheckWaitResponse := false; gateState := CLOSED;
              closeGateTimeout := closeGateTimeout s1;
              isReconnecting := isReconnecting s1;
              isShuttingDown := isShuttingDown s1;
              connectionRetry := 0; exited := false;
              gateController := gateController s1;
              tagValidator := tagValidator s1 |}, [])
      | GateOpenedAck => (s1, [])
      | TagRead t => (s1, [AHandleTagRead t])
      | Unknown => (s1, [])
      end
  | EvTimeout =>
      if GateState_eqb (gateState s) OPEN then (s, [ADestroy])
      else if healthCheckWaitResponse s then (s, [ADestroy])
      else (s, [AWrite HEALTHCHECK_CMD])
  | EvHcWritten true => (set_hc s true, [AArmGrace])
  | EvHcWritten false => (s, [ADestroy])
  | EvHcGrace =>
      if healthCheckWaitResponse s then (s, [ADestroy]) else (s, [])
  | EvClose =>
      if ATTEMPT_RECONNECT cfg <? connectionRetry s then
        ({| healthCheckWaitResponse := healthCheckWaitResponse s;
            gateState := gateState s; closeGateTimeout := closeGateTimeout s;
            isReconnecting := isReconnecting s;
            isShuttingDown := isShuttingDown s;
            connectionRetry := connectionRetry s; exited := true;
            gateController := gateController s;
            tagValidator := tagValidator s |}, [AExit])
      else if negb (isReconnecting s) then
        ({| healthCheckWaitResponse := healthCheckWaitResponse s;
            gateState := gateState s; closeGateTimeout := None;
            isReconnecting := true; isShuttingDown := isShuttingDown s;
            connectionRetry := connectionRetry s + 1; exited := false;
            gateController := gateController s;
            tagValidator := tagValidator s |}, [AScheduleReconnect])
      else (s, [])
  | EvTagValidated ok now =>
      ({| healthCheckWaitResponse := healthCheckWaitResponse s;
          gateState := gateState s; closeGateTimeout := closeGateTimeout s;
          isReconnecting := isReconnecting s; isShuttingDown := isShuttingDown s;
          connectionRetry := connectionRetry s; exited := false;
          gateController := Gate.handleTagReadGate ok now (gateController s);
          tagValidator := tagValidator s |}, [])
  end.

(** A run of events: the final session and all actions, in order. *)
Fixpoint run (cfg : Config) (s : Session) (es : list Event)
  : Session * list Action :=
  match es with
  | [] => (s, [])
  | e :: r =>
      let (s1, a1) := step cfg s e in
      let (s2, a2) := run cfg s1 r in
      (s2, a1 ++ a2)
  end.

(** The [registerAccess] call of [handleTagRead] on the session. *)
Definition registerAccessStep (t antennaId : string)
  (resp : Validator.RegisterResponse) (s : Session) : bool * Session :=
  let (b, tv) := Validator.registerAccess t antennaId resp (tagValidator s) in
  (b, {| healthCheckWaitResponse := healthCheckWaitResponse s;
         gateState := gateState s; closeGateTimeout := closeGateTimeout s;
         isReconnecting := isReconnecting s; isShuttingDown := isShuttingDown s;
         connectionRetry := connectionRetry s; exited := exited s;
         gateController := gateController s; tagValidator := tv |}).

(** The session at process start, before [connectToAntenna]. *)
Definition initSession (cfg : Config) : Session :=
  {| healthCheckWaitResponse := false; gateState := CLOSED;
     closeGateTimeout := None; isReconnecting := false;
     isShuttingDown := false; connectionRetry := 0; exited := false;
     gateController :=
       Gate.newGateController (Some (GATE_TIMEOUT_TO_CLOSE cfg)) false;
     tagValidator := Validator.newTagValidator |}.

(** [get getGateState()]: the module-level [gateState] as a string. *)
Definition getGateState (s : Session) : string :=
  match gateState s with
  | CLOSED => "closed"
  | OPENING => "opening"
  | OPEN => "open"
  | CLOSING => "closing"
  end.

(** [AntennaManager.openGate()] and [closeGate()]: the global
    [gateController] is unset ([None]) until [connectToAntenna] has run;
    the controller's promise is not awaited and its result is dropped. *)
Definition managerOpenGate (gc : option Gate.GateController) (now : Z)
  : bool * option Gate.GateController :=
  match gc with
  | None => (false, None)
  | Some g => (true, Some (snd (Gate.openGate None now g)))
  end.

Definition managerCloseGate (gc : option Gate.GateController) (now : Z)
  : bool * option Gate.GateController :=
  match gc with
  | None => (false, None)
  | Some g => (true, Some (snd (Gate.closeGate now g)))
  end.

(** The HTTP handlers [openGate] and [closeGate] of gate.controller.ts:
    the status code they answer with.  The parsed [autoCloseTime] is passed
    to [antennaInstance.openGate], which declares no parameter. *)
Definition httpOpenGate (autoCloseTime : option Z)
  (gc : option Gate.GateController) (now : Z) : Z * option Gate.GateController :=
  let (result, gc') := managerOpenGate gc now in
  (if result then 200 else 500, gc').

Definition httpCloseGate (gc : option Gate.GateController) (now : Z)
  : Z * option Gate.GateController :=
  let (result, gc') := managerCloseGate gc now in
  (if result then 200 else 500, gc').

End Antenna.

(* ================================================================== *)
(** * Properties *)

(* ------------------------------------------------------------------ *)
(** ** Gate state machine *)

Module GateProofs.
Import Gate.

Lemma GateState_eqb_spec a b : GateState_eqb a b = true <-> a = b.
Proof. destruct a, b; simpl; split; congruence. Qed.

Lemma GateState_eqb_neq a b : a <> b -> GateState_eqb a b = false.
Proof.
  intros H. destruct (GateState_eqb a b) eqn:E; [|reflexivity].
  apply GateState_eqb_spec in E. contradiction.
Qed.

(** A controller that has not opened the gate yet. *)
Definition g_fresh (destroyed : bool) : GateController :=
  newGateController (Some 5000) destroyed.

(** C1 (as stated, refuted): on a controller in state CLOSED whose socket
    has been destroyed, [openGate] does not succeed: [sendCommand] throws,
    the [catch] returns [false] and the state stays CLOSED. *)
Lemma openGate_closed_destroyed_fails :
  state (g_fresh true) = CLOSED
  /\ openGate None 0 (g_fresh true) = (false, g_fresh true).
Proof. split; reflexivity. Qed.

(** C1 (amended): [openGate] (with or without an override) returns [false]
    and changes nothing when the state is not CLOSED; from CLOSED with a
    live socket it writes the relay-open frame, moves to OPEN, arms the
    auto-close timer for the override or [openDurationMs] from [now], and
    returns [true]; from CLOSED with a destroyed socket it returns [false]
    and changes nothing.  [closeGate] returns [false] and changes nothing
    when the state is not OPEN. *)
Theorem openGate_closeGate_guards :
  forall (ov : option Z) (now : Z) (g : GateController),
    (state g <> CLOSED -> openGate ov now g = (false, g))
    /\ (state g = CLOSED -> socketDestroyed g = false ->
        fst (openGate ov now g) = true
        /\ state (snd (openGate ov now g)) = OPEN
        /\ written (snd (openGate ov now g)) = written g ++ [relayOpenCmd g]
        /\ openTimer (snd (openGate ov now g))
           = Some (mkTimer now match ov with
                               | Some t => t
                               | None => openDurationMs g
                               end))
    /\ (state g = CLOSED -> socketDestroyed g = true ->
        openGate ov now g = (false, g))
    /\ (state g <> OPEN -> closeGate now g = (false, g)).
Proof.
  intros ov now g. unfold openGate, closeGate, sendCommand.
  repeat split; intros.
  - rewrite GateState_eqb_neq by assumption. reflexivity.
  - rewrite H, H0. reflexivity.
  - rewrite H, H0. reflexivity.
  - rewrite H, H0. reflexivity.
  - rewrite H, H0. reflexivity.
  - rewrite H, H0. reflexivity.
  - rewrite GateState_eqb_neq by assumption. reflexivity.
Qed.

Lemma openGate_closeGate_guards_witness :
  (state (g_fresh false) = CLOSED /\ socketDestroyed (g_fresh false) = false)
  /\ fst (openGate (Some 12000) 7 (g_fresh false)) = true
  /\ closesAt (snd (openGate (Some 12000) 7 (g_fresh false))) = Some 12007.
Proof.
  split; [split; reflexivity|].
  destruct (openGate_closeGate_guards (Some 12000) 7 (g_fresh false))
    as [_ [Hopen _]].
  destruct (Hopen eq_refl eq_refl) as [Hb [_ [_ Ht]]].
  split; [exact Hb|]. unfold closesAt. rewrite Ht. reflexivity.
Defined.

(** The gate opened at time 0 with a 5 s auto-close, and the same tag
    read again (and authorized) at time 3000. *)
Definition g_opened : GateController := snd (openGate None 0 (g_fresh false)).
Definition g_represented : GateController := handleTagReadGate true 3000 g_opened.

(** C2 (code defect): an authorized re-read of the tag 3 s after the
    open does not move the auto-close: [openGate] rejects the call because
    the state is not CLOSED, so the gate still closes at 5000 and not
    5 s after the re-read, at 3000 + 5000. *)
Lemma represent_does_not_rearm :
  state g_opened = OPEN
  /\ closesAt g_opened = Some 5000
  /\ g_represented = g_opened
  /\ closesAt g_represented = Some 5000
  /\ closesAt g_represented <> Some (3000 + 5000).
Proof. vm_compute. repeat split; congruence. Qed.

End GateProofs.

(* ------------------------------------------------------------------ *)
(** ** Tag authorization cache *)

Module ValidatorProofs.
Import Validator.

(** *** The insertion-ordered map *)

Lemma map_get_none_iff k m : map_get k m = None <-> ~ In k (map_keys m).
Proof.
  induction m as [|[k' v] r IH]; simpl; [tauto|].
  destruct (String.eqb_spec k k') as [->|Hne].
  - split; [discriminate|]. intros H. exfalso. apply H. left. reflexivity.
  - rewrite IH. split; intros H; [intros [E|E]; [congruence|tauto]|tauto].
Qed.

Lemma map_get_delete_neq k k0 m :
  k <> k0 -> map_get k (map_delete k0 m) = map_get k m.
Proof.
  intros Hne. unfold map_delete.
  induction m as [|[k' v] r IH]; simpl; [reflexivity|].
  destruct (String.eqb_spec k' k0) as [->|Hne']; simpl.
  - destruct (String.eqb_spec k k0); [congruence|]. exact IH.
  - destruct (String.eqb k k'); [reflexivity|exact IH].
Qed.

Lemma map_get_delete_eq k m : map_get k (map_delete k m) = None.
Proof.
  unfold map_delete.
  induction m as [|[k' v] r IH]; simpl; [reflexivity|].
  destruct (String.eqb_spec k' k) as [->|Hne]; simpl; [exact IH|].
  destruct (String.eqb_spec k k'); [congruence|exact IH].
Qed.

Lemma map_delete_absent k m : ~ In k (map_keys m) -> map_delete k m = m.
Proof.
  unfold map_delete.
  induction m as [|[k' v] r IH]; simpl; intros H; [reflexivity|].
  destruct (String.eqb_spec k' k) as [->|Hne]; [exfalso; tauto|].
  simpl. rewrite IH by tauto. reflexivity.
Qed.

Lemma map_delete_keys_incl k m x :
  In x (map_keys (map_delete k m)) -> In x (map_keys m).
Proof.
  unfold map_delete.
  induction m as [|[k' v] r IH]; simpl; [tauto|].
  destruct (negb (String.eqb k' k)); simpl; [intros [H|H]; auto|intros H; auto].
Qed.

Lemma map_delete_nodup k m :
  NoDup (map_keys m) -> NoDup (map_keys (map_delete k m)).
Proof.
  induction m as [|[k' v] r IH]; simpl; intros H; [constructor|].
  inversion H as [|? ? Hnin Hnd]; subst.
  unfold map_delete in *; simpl.
  destruct (negb (String.eqb k' k)); simpl; auto.
  constructor; auto. intros Hin. apply Hnin. exact (map_delete_keys_incl k r k' Hin).
Qed.

Lemma map_delete_length k m : (length (map_delete k m) <= length m)%nat.
Proof.
  unfold map_delete.
  induction m as [|p r IH]; simpl; [lia|].
  destruct (negb (String.eqb (fst p) k)); simpl; lia.
Qed.

Lemma map_set_absent k v m : ~ In k (map_keys m) -> map_set k v m = m ++ [(k, v)].
Proof.
  induction m as [|[k' v'] r IH]; simpl; intros H; [reflexivity|].
  destruct (String.eqb_spec k k') as [->|Hne]; [exfalso; tauto|].
  rewrite IH by tauto. reflexivity.
Qed.

Lemma map_set_present_keys k v m :
  In k (map_keys m) -> map_keys (map_set k v m) = map_keys m.
Proof.
  induction m as [|[k' v'] r IH]; simpl; intros H; [contradiction|].
  destruct (String.eqb_spec k k') as [->|Hne]; simpl; [reflexivity|].
  rewrite IH by (destruct H; [congruence|assumption]). reflexivity.
Qed.

Lemma map_keys_length m : length (map_keys m) = length m.
Proof. unfold map_keys. apply length_map. Qed.

Lemma map_keys_app m m' : map_keys (m ++ m') = map_keys m ++ map_keys m'.
Proof. unfold map_keys. apply map_app. Qed.

Lemma map_get_app_last k v m :
  map_get k m = None -> map_get k (m ++ [(k, v)]) = Some v.
Proof.
  induction m as [|[k' v'] r IH]; simpl; intros H.
  - rewrite String.eqb_refl. reflexivity.
  - destruct (String.eqb k k'); [discriminate|]. auto.
Qed.

(** *** [updateCache] *)

Definition cache_ok (m : CacheMap) : Prop :=
  (length m <= 100)%nat /\ NoDup (map_keys m).

(** A key that was absent is readable right after [updateCache]. *)
Lemma updateCache_get k ok now m :
  map_get k m = None -> map_get k (updateCache k ok now m) = Some (mkTC k now ok).
Proof.
  intros H. unfold updateCache.
  rewrite map_set_absent by (apply map_get_none_iff; exact H).
  destruct (100 <? length (m ++ [(k, mkTC k now ok)]))%nat eqn:Hc.
  - destruct m as [|[k0 v0] r]; cbn [app].
    + discriminate Hc.
    + simpl in H. destruct (String.eqb_spec k k0) as [->|Hne]; [discriminate|].
      rewrite map_get_delete_neq by exact Hne. simpl.
      rewrite (proj2 (String.eqb_neq k k0) Hne). apply map_get_app_last. exact H.
  - apply map_get_app_last. exact H.
Qed.

(** Inserting a new key into a full cache drops exactly its first key. *)
Lemma updateCache_evicts_oldest k ok now m :
  NoDup (map_keys m) -> ~ In k (map_keys m) -> length m = 100%nat ->
  updateCache k ok now m = tl m ++ [(k, mkTC k now ok)].
Proof.
  intros Hnd Hk Hlen. unfold updateCache.
  rewrite map_set_absent by exact Hk.
  rewrite length_app. simpl length. rewrite Hlen. simpl Nat.ltb.
  destruct m as [|[k0 v0] r]; [discriminate|]. simpl.
  inversion Hnd as [|? ? Hnin _]; subst.
  assert (Hk0 : k0 <> k) by (intros ->; apply Hk; left; reflexivity).
  unfold map_delete. simpl. rewrite String.eqb_refl. simpl.
  apply map_delete_absent. rewrite map_keys_app. simpl.
  intros Hin. apply in_app_or in Hin. destruct Hin as [Hin|[Hin|[]]]; auto.
Qed.

Lemma updateCache_ok k ok now m : cache_ok m -> cache_ok (updateCache k ok now m).
Proof.
  intros [Hlen Hnd]. unfold updateCache.
  destruct (in_dec String.string_dec k (map_keys m)) as [Hin|Hnin].
  - assert (Hl : length (map_set k (mkTC k now ok) m) = length m).
    { rewrite <- !map_keys_length. rewrite map_set_present_keys by exact Hin.
      reflexivity. }
    rewrite Hl. destruct (Nat.ltb_spec 100 (length m)); [lia|].
    split; [lia|]. rewrite map_set_present_keys by exact Hin. exact Hnd.
  - rewrite map_set_absent by exact Hnin.
    assert (Hnd' : NoDup (map_keys (m ++ [(k, mkTC k now ok)]))).
    { rewrite map_keys_app. simpl. apply NoDup_app; auto.
      - constructor; [simpl; tauto|constructor].
      - intros x Hx [Hy|[]]; subst; contradiction. }
    destruct (Nat.ltb_spec 100 (length (m ++ [(k, mkTC k now ok)]))) as [Hgt|Hle].
    + destruct m as [|[k0 v0] r]; [simpl in Hgt; lia|].
      simpl app. simpl in Hnd'. inversion Hnd' as [|? ? Hn0 Hnd0]; subst.
      unfold map_delete. simpl. rewrite String.eqb_refl. simpl.
      fold (map_delete k0 (r ++ [(k, mkTC k now ok)])).
      rewrite map_delete_absent by exact Hn0.
      split; [|exact Hnd0].
      rewrite length_app in *. simpl in *. lia.
    + split; assumption.
Qed.

Lemma cache_ok_delete k m : cache_ok m -> cache_ok (map_delete k m).
Proof.
  intros [Hl Hn]. split.
  - pose proof (map_delete_length k m). lia.
  - apply map_delete_nodup. exact Hn.
Qed.

Lemma getCachedValidation_cache t now tv :
  cache_ok (tagCache tv) ->
  cache_ok (tagCache (snd (getCachedValidation t now tv)))
  /\ cacheTimeout (snd (getCachedValidation t now tv)) = cacheTimeout tv.
Proof.
  intros H. unfold getCachedValidation.
  destruct (map_get t (tagCache tv)); [|split; auto].
  destruct (now - validatedAt t0 >? cacheTimeout tv); simpl; [|split; auto].
  split; [apply cache_ok_delete; exact H|reflexivity].
Qed.

Lemma fold_delete_ok ks m :
  cache_ok m -> cache_ok (fold_left (fun m k => map_delete k m) ks m).
Proof.
  revert m. induction ks as [|k ks IH]; simpl; intros m Hm; [exact Hm|].
  apply IH. apply cache_ok_delete. exact Hm.
Qed.

Lemma applyOp_ok tv op : cache_ok (tagCache tv) -> cache_ok (tagCache (applyOp tv op)).
Proof.
  intros H. destruct op as [raw now resp|raw| |now]; simpl.
  - unfold validateTag.
    destruct (negb (isValidTagFormat (sanitizeTag raw))); [exact H|].
    pose proof (proj1 (getCachedValidation_cache (sanitizeTag raw) now tv H)) as H1.
    destruct (getCachedValidation (sanitizeTag raw) now tv) as [c tv1]. simpl in H1.
    destruct c; [exact H1|].
    destruct (validateViaAPI (sanitizeTag raw) now resp); simpl;
      [exact H1|apply updateCache_ok; exact H1].
  - apply cache_ok_delete. exact H.
  - split; [simpl; lia|constructor].
  - unfold cleanExpiredCache. simpl. apply fold_delete_ok. exact H.
Qed.

Lemma runValidator_ok tv ops :
  cache_ok (tagCache tv) -> cache_ok (tagCache (runValidator tv ops)).
Proof.
  unfold runValidator. revert tv.
  induction ops as [|op r IH]; simpl; intros tv H; [exact H|].
  apply IH. apply applyOp_ok. exact H.
Qed.

(** *** Claims *)

Definition TAG8 : string := "E2000017".

(** C3 (as stated, refuted): when the first verification call times out,
    no cache entry is written and a second [validateTag] a second later
    contacts the service again: two calls, not one. *)
Lemma validate_twice_after_timeout_calls_twice :
  isValidTagFormat (sanitizeTag TAG8) = true
  /\ (apiCalls (validateTag TAG8 0 VerifyAborted newTagValidator)
      + apiCalls (validateTag TAG8 1000 (VerifyOk (Some true) None)
                    (validator (validateTag TAG8 0 VerifyAborted newTagValidator))))%nat
     = 2%nat.
Proof. vm_compute. split; reflexivity. Qed.

Lemma getCachedValidation_none t now tv :
  fst (getCachedValidation t now tv) = None ->
  map_get t (tagCache (snd (getCachedValidation t now tv))) = None
  /\ cacheTimeout (snd (getCachedValidation t now tv)) = cacheTimeout tv.
Proof.
  unfold getCachedValidation.
  destruct (map_get t (tagCache tv)) eqn:E; simpl; intros H; [|split; auto].
  destruct (now - validatedAt t0 >? cacheTimeout tv); simpl; [|discriminate].
  split; [apply map_get_delete_eq|reflexivity].
Qed.

(** C3 (amended): for a well-formed tag with no live cache entry, two
    [validateTag] calls whose times differ by at most the TTL make exactly
    one verification call when the first call's [fetch] returns an ok
    response (authorized or denied, which is then cached), and two calls
    when it times out, gets a non-ok status, an unparsable body or a
    transport error (which write no cache entry). *)
Theorem validate_twice_api_calls :
  forall (raw : string) (now1 now2 : Z) (resp1 resp2 : VerifyResponse)
         (tv : TagValidator),
    isValidTagFormat (sanitizeTag raw) = true ->
    fst (getCachedValidation (sanitizeTag raw) now1 tv) = None ->
    now2 - now1 <= cacheTimeout tv ->
    (verifyReturned resp1 = true ->
     (apiCalls (validateTag raw now1 resp1 tv)
      + apiCalls (validateTag raw now2 resp2 (validator (validateTag raw now1 resp1 tv))))%nat
     = 1%nat)
    /\ (verifyReturned resp1 = false ->
        (apiCalls (validateTag raw now1 resp1 tv)
         + apiCalls (validateTag raw now2 resp2 (validator (validateTag raw now1 resp1 tv))))%nat
        = 2%nat).
Proof.
  intros raw now1 now2 resp1 resp2 tv Hfmt Hmiss Httl.
  pose proof (getCachedValidation_none _ _ _ Hmiss) as [Hget Hto].
  destruct (getCachedValidation (sanitizeTag raw) now1 tv) as [c tv1] eqn:Eg.
  simpl in Hmiss, Hget, Hto. subst c.
  assert (E1 : validateTag raw now1 resp1 tv
               = match validateViaAPI (sanitizeTag raw) now1 resp1 with
                 | inr r =>
                     mkOutcome r (with_cache tv1
                       (updateCache (sanitizeTag raw) (isValid r) now1 (tagCache tv1))) 1
                 | inl msg =>
                     mkOutcome {| isValid := false; tag := raw;
                                  reason := ("Erro na validação: " ++ msg)%string;
                                  timestamp := now1 |} tv1 1
                 end).
  { unfold validateTag. rewrite Hfmt, Eg. reflexivity. }
  rewrite E1. split; intros Hr.
  - destruct resp1 as [auth r| | | |]; try discriminate Hr.
    cbn [validateViaAPI validator apiCalls].
    unfold validateTag. rewrite Hfmt. cbn [negb].
    unfold getCachedValidation. cbn [tagCache with_cache].
    rewrite updateCache_get by exact Hget. cbn [validatedAt cacheTimeout].
    change (cacheTimeout (with_cache tv1 ?m)) with (cacheTimeout tv1).
    rewrite Hto. destruct (Z.gtb_spec (now2 - now1) (cacheTimeout tv)); [lia|].
    reflexivity.
  - assert (Hinl : exists msg, validateViaAPI (sanitizeTag raw) now1 resp1 = inl msg).
    { destruct resp1; try discriminate Hr; eexists; reflexivity. }
    destruct Hinl as [msg Hm]. rewrite Hm. cbn [validator apiCalls].
    unfold validateTag. rewrite Hfmt. cbn [negb].
    unfold getCachedValidation. rewrite Hget.
    destruct (validateViaAPI (sanitizeTag raw) now2 resp2); reflexivity.
Qed.

Lemma validate_twice_api_calls_witness :
  (apiCalls (validateTag TAG8 0 (VerifyOk (Some false) None) newTagValidator)
   + apiCalls (validateTag TAG8 1000 VerifyAborted
                 (validator (validateTag TAG8 0 (VerifyOk (Some false) None)
                               newTagValidator))))%nat = 1%nat.
Proof.
  apply (validate_twice_api_calls TAG8 0 1000 (VerifyOk (Some false) None)
           VerifyAborted newTagValidator); vm_compute; try reflexivity; try discriminate.
Defined.

Lemma isValidTagFormat_length t :
  isValidTagFormat t = true ->
  (8 <= String.length t)%nat /\ (String.length t <= 16)%nat
  /\ Nat.even (String.length t) = true.
Proof.
  unfold isValidTagFormat. intros H.
  apply andb_prop in H as [H H3]. apply andb_prop in H as [H H2].
  apply andb_prop in H as [_ H1].
  apply Nat.leb_le in H1, H2. auto.
Qed.

(** C4: a raw tag whose sanitized form has fewer than 8 or more than 16
    characters, or an odd number of them, is rejected with the bad-format
    reason, without a verification call and without touching the
    validator. *)
Theorem validate_bad_format :
  forall (raw : string) (now : Z) (resp : VerifyResponse) (tv : TagValidator),
    ((String.length (sanitizeTag raw) < 8)%nat
     \/ (16 < String.length (sanitizeTag raw))%nat
     \/ Nat.odd (String.length (sanitizeTag raw)) = true) ->
    validateTag raw now resp tv
    = mkOutcome {| isValid := false; tag := sanitizeTag raw;
                   reason := BAD_FORMAT_REASON; timestamp := now |} tv 0.
Proof.
  intros raw now resp tv Hbad. unfold validateTag.
  destruct (isValidTagFormat (sanitizeTag raw)) eqn:Hf; [|reflexivity].
  exfalso. apply isValidTagFormat_length in Hf as [H1 [H2 H3]].
  rewrite <- Nat.negb_even, H3 in Hbad. simpl in Hbad.
  destruct Hbad as [H|[H|H]]; [lia|lia|discriminate].
Qed.

Lemma validate_bad_format_witness :
  apiCalls (validateTag "e2-00-00-17-aa-b" 0 VerifyAborted newTagValidator) = 0%nat
  /\ isValid (result (validateTag "e2-00-00-17-aa-b" 0 VerifyAborted newTagValidator)) = false.
Proof.
  rewrite (validate_bad_format "e2-00-00-17-aa-b" 0 VerifyAborted newTagValidator).
  - split; reflexivity.
  - right. right. vm_compute. reflexivity.
Defined.

(** One hundred distinct well-formed tags AAAAAA00 .. AAAAAA63, each
    validated once with an authorized answer. *)
Definition hexDigit (n : nat) : ascii :=
  nth n ["0"; "1"; "2"; "3"; "4"; "5"; "6"; "7"; "8"; "9";
         "A"; "B"; "C"; "D"; "E"; "F"]%char "0"%char.

Definition fill_tag (n : nat) : string :=
  ("AAAAAA" ++ String (hexDigit (n / 16)) (String (hexDigit (n mod 16)) EmptyString))%string.

Definition fill_ops : list CacheOp :=
  map (fun n => OpValidate (fill_tag n) (Z.of_nat n) (VerifyOk (Some true) None)) (seq 0 100).

(** C5: in every cache a [TagValidator] reaches from an empty one, through
    any sequence of [validateTag], [invalidateTag], [clearCache] and
    [cleanExpiredCache] calls, there are at most 100 entries with distinct
    keys; an [updateCache] on it keeps at most 100 entries, and when it
    inserts a new tag into a cache of exactly 100 entries the result is the
    cache without its first-inserted entry, with the new one appended. *)
Theorem cache_capacity_and_eviction :
  forall (tv0 : TagValidator) (ops : list CacheOp),
    tagCache tv0 = [] ->
    let m := tagCache (runValidator tv0 ops) in
    (length m <= 100)%nat /\ NoDup (map_keys m)
    /\ forall (k : string) (ok : bool) (now : Z),
         (length (updateCache k ok now m) <= 100)%nat
         /\ (~ In k (map_keys m) -> length m = 100%nat ->
             updateCache k ok now m = tl m ++ [(k, mkTC k now ok)]).
Proof.
  intros tv0 ops H0 m.
  assert (Hok : cache_ok m).
  { apply runValidator_ok. rewrite H0. split; [simpl; lia|constructor]. }
  destruct Hok as [Hl Hn]. split; [exact Hl|]. split; [exact Hn|].
  intros k ok now. split.
  - apply (updateCache_ok k ok now m). split; assumption.
  - intros Hk Hlen. apply updateCache_evicts_oldest; assumption.
Qed.

Lemma cache_capacity_and_eviction_witness :
  length (tagCache (runValidator newTagValidator fill_ops)) = 100%nat
  /\ map_keys (tagCache (runValidator newTagValidator fill_ops)) = map fill_tag (seq 0 100)
  /\ updateCache "FFFFFFFF" true 1000 (tagCache (runValidator newTagValidator fill_ops))
     = tl (tagCache (runValidator newTagValidator fill_ops))
       ++ [("FFFFFFFF"%string, mkTC "FFFFFFFF" 1000 true)].
Proof.
  split; [vm_compute; reflexivity|]. split; [vm_compute; reflexivity|].
  pose proof (cache_capacity_and_eviction newTagValidator fill_ops eq_refl) as Hc.
  cbv zeta in Hc. destruct Hc as [_ [_ Hev]].
  apply (proj2 (Hev "FFFFFFFF"%string true 1000)).
  - intros Hin.
    assert (Hex : existsb (String.eqb "FFFFFFFF")
                    (map_keys (tagCache (runValidator newTagValidator fill_ops))) = true).
    { apply existsb_exists. exists "FFFFFFFF"%string.
      split; [exact Hin | apply String.eqb_refl]. }
    vm_compute in Hex. discriminate Hex.
  - vm_compute. reflexivity.
Defined.

End ValidatorProofs.

(* ------------------------------------------------------------------ *)
(** ** Frame codec and connection supervisor *)

Module AntennaProofs.
Import Antenna.

Lemma prefix_app_eq p h : String.prefix p h = true -> exists r, h = (p ++ r)%string.
Proof.
  revert h. induction p as [|c p IH]; intros h H.
  - exists h. reflexivity.
  - destruct h as [|c' h]; [discriminate|]. simpl in H.
    destruct (ascii_dec c c') as [->|]; [|discriminate].
    destruct (IH h H) as [r ->]. exists r. reflexivity.
Qed.

Lemma substring_length n m s :
  (n + m <= String.length s)%nat -> String.length (substring n m s) = m.
Proof.
  revert n m. induction s as [|c s IH]; intros n m H; simpl in *.
  - destruct n, m; simpl in *; try lia; reflexivity.
  - destruct n as [|n].
    + destruct m as [|m]; simpl; [reflexivity|]. f_equal. apply IH. lia.
    + apply IH. lia.
Qed.

(** A tag-read frame of 24 hexadecimal characters whose characters at
    positions length-13 .. length-4 read 0123456789. *)
Definition TAG_FRAME : string := "cf00000112f0123456789abc".

(** C6 (as stated, refuted): the slice rule takes 9 characters, so the
    identifier has 10 characters and cannot be 00123456789; on the frame
    above it is 0012345678. *)
Lemma tag_frame_id_is_ten_chars :
  String.length TAG_FRAME = 24%nat
  /\ substring (24 - 13) 10 TAG_FRAME = "0123456789"%string
  /\ classify TAG_FRAME = TagRead "0012345678"
  /\ classify TAG_FRAME <> TagRead "00123456789".
Proof. vm_compute. repeat split; congruence. Qed.

(** C6 (amended): a frame whose hex string starts with cf00000112 and has
    at least 13 characters is a tag read whose identifier is "0" followed
    by the 9 characters at positions length-13 .. length-5, i.e.
    [slice(length-13, length-4)]: 10 characters in all. *)
Theorem tag_read_identifier :
  forall h : string,
    String.prefix "cf00000112" h = true ->
    (13 <= String.length h)%nat ->
    classify h = TagRead ("0" ++ substring (String.length h - 13) 9 h)%string
    /\ String.length ("0" ++ substring (String.length h - 13) 9 h)%string = 10%nat.
Proof.
  intros h Hp Hl.
  split.
  - destruct (prefix_app_eq _ _ Hp) as [r Hr].
    assert (Hc : classify h = TagRead ("0" ++ js_slice h (-13) (-4))%string).
    { unfold classify.
      assert (H1 : String.prefix "cf000050" h = false) by (rewrite Hr; reflexivity).
      assert (H2 : String.prefix "cf000073" h = false) by (rewrite Hr; reflexivity).
      assert (H3 : String.prefix "cf000077020001" h = false) by (rewrite Hr; reflexivity).
      assert (H4 : String.prefix "cf00007703" h = false) by (rewrite Hr; reflexivity).
      rewrite H1, H2, H3, H4, Hp. reflexivity. }
    rewrite Hc. do 2 f_equal. clear Hc Hr Hp.
    unfold js_slice.
    set (n := String.length h) in *.
    destruct (Z.ltb_spec (-13) 0); [|lia].
    destruct (Z.ltb_spec (-4) 0); [|lia].
    rewrite !Z.max_l by lia.
    destruct (Z.ltb_spec (Z.of_nat n + -13) (Z.of_nat n + -4)); [|lia].
    f_equal; lia.
  - simpl. f_equal. apply substring_length. lia.
Qed.

Lemma tag_read_identifier_witness :
  classify TAG_FRAME = TagRead "0012345678".
Proof.
  destruct (tag_read_identifier TAG_FRAME) as [H _];
    [vm_compute; reflexivity|vm_compute; lia|].
  rewrite H. vm_compute. reflexivity.
Defined.

(** *** Reconnect counter *)

(** Split every conditional and match left in a goal after unfolding [step]. *)
Ltac split_branches :=
  repeat match goal with
         | |- context [if ?b then _ else _] => destruct b eqn:?
         | |- context [match ?x with _ => _ end] => destruct x eqn:?
         end.

Lemma run_exited cfg s es : exited s = true -> run cfg s es = (s, []).
Proof.
  intros H. induction es as [|e es IH]; simpl; [reflexivity|].
  unfold step at 1. rewrite H. rewrite IH. reflexivity.
Qed.

Definition cfg_default : Config := loadConfig None None None.

Definition s_retry2 : Session :=
  {| healthCheckWaitResponse := false; gateState := CLOSED;
     closeGateTimeout := None; isReconnecting := false;
     isShuttingDown := false; connectionRetry := 2; exited := false;
     gateController := Gate.newGateController (Some 5000) false;
     tagValidator := Validator.newTagValidator |}.

(** Reconnect attempts whose socket closes without connecting. *)
Definition failed_attempts (n : nat) : list Event :=
  concat (repeat [EvReconnectTimer; EvClose] n).

Lemma failed_attempts_silent cfg n s :
  1 <= ATTEMPT_RECONNECT cfg -> isReconnecting s = true -> exited s = false ->
  connectionRetry s = 1 ->
  snd (run cfg s (failed_attempts n)) = []
  /\ isReconnecting (fst (run cfg s (failed_attempts n))) = true
  /\ exited (fst (run cfg s (failed_attempts n))) = false
  /\ connectionRetry (fst (run cfg s (failed_attempts n))) = 1.
Proof.
  intros Ha. revert s. induction n as [|n IH]; intros s Hr Hx Hc; [simpl; auto|].
  change (failed_attempts (S n)) with (EvReconnectTimer :: EvClose :: failed_attempts n).
  set (s1 := fst (step cfg s EvReconnectTimer)).
  assert (E1 : step cfg s EvReconnectTimer = (s1, [])).
  { unfold s1, step. rewrite Hx. reflexivity. }
  assert (Hr1 : isReconnecting s1 = true) by (unfold s1, step; rewrite Hx; exact Hr).
  assert (Hx1 : exited s1 = false) by (unfold s1, step; rewrite Hx; reflexivity).
  assert (Hc1 : connectionRetry s1 = 1) by (unfold s1, step; rewrite Hx; exact Hc).
  assert (E2 : step cfg s1 EvClose = (s1, [])).
  { unfold step at 1. rewrite Hx1, Hc1, Hr1.
    destruct (Z.ltb_spec (ATTEMPT_RECONNECT cfg) 1); [lia|]. reflexivity. }
  cbn [run]. rewrite E1. cbn beta iota. rewrite E2. cbn beta iota.
  destruct (IH s1 Hr1 Hx1 Hc1) as [Ha2 Hrest].
  destruct (run cfg s1 (failed_attempts n)) as [s2 a2]. cbn [fst snd] in *.
  rewrite Ha2. auto.
Qed.

(** C7 (code defect): after a connect and a close, which schedules a
    reconnect and raises the counter to 1, any number [n] of reconnect
    attempts whose socket closes without connecting produce no action at
    all: [isReconnecting] stays set, since only the connect callback clears
    it, so no further reconnect is scheduled, the counter stays at 1 and
    the process never reaches the retry limit and never exits. *)
Theorem failed_reconnects_stall :
  forall (cfg : Config) (n : nat),
    1 <= ATTEMPT_RECONNECT cfg ->
    snd (run cfg (initSession cfg) (EvConnect :: EvClose :: failed_attempts n))
      = [AWrite Gate.RELAY_CLOSE_CMD; AScheduleReconnect]
    /\ exited (fst (run cfg (initSession cfg) (EvConnect :: EvClose :: failed_attempts n))) = false
    /\ connectionRetry (fst (run cfg (initSession cfg) (EvConnect :: EvClose :: failed_attempts n))) = 1
    /\ isReconnecting (fst (run cfg (initSession cfg) (EvConnect :: EvClose :: failed_attempts n))) = true.
Proof.
  intros cfg n Ha.
  set (s1 := fst (step cfg (initSession cfg) EvConnect)).
  assert (E1 : step cfg (initSession cfg) EvConnect = (s1, [AWrite Gate.RELAY_CLOSE_CMD]))
    by reflexivity.
  set (s2 := fst (step cfg s1 EvClose)).
  assert (E2 : step cfg s1 EvClose = (s2, [AScheduleReconnect])).
  { unfold s2, step at 1 2. cbn [s1 fst step initSession exited connectionRetry isReconnecting].
    destruct (Z.ltb_spec (ATTEMPT_RECONNECT cfg) 0); [lia|]. reflexivity. }
  assert (Hr2 : isReconnecting s2 = true /\ exited s2 = false /\ connectionRetry s2 = 1).
  { unfold s2, step. cbn [s1 fst step initSession exited connectionRetry isReconnecting].
    destruct (Z.ltb_spec (ATTEMPT_RECONNECT cfg) 0); [lia|]. cbn. auto. }
  destruct Hr2 as [Hr2 [Hx2 Hc2]].
  cbn [run]. rewrite E1. cbn beta iota. rewrite E2. cbn beta iota.
  destruct (failed_attempts_silent cfg n s2 Ha Hr2 Hx2 Hc2) as [Ha3 Hrest].
  destruct (run cfg s2 (failed_attempts n)) as [s3 a3]. cbn [fst snd] in *.
  rewrite Ha3. destruct Hrest as [Hr3 [Hx3 Hc3]]. auto.
Qed.

Lemma failed_reconnects_stall_witness :
  snd (run cfg_default (initSession cfg_default)
         (EvConnect :: EvClose :: failed_attempts 10))
  = [AWrite Gate.RELAY_CLOSE_CMD; AScheduleReconnect].
Proof.
  destruct (failed_reconnects_stall cfg_default 10) as [H _];
    [vm_compute; discriminate|].
  exact H.
Defined.

(** *** Idle timeout *)

(** C8: on a live process with the module gate state not OPEN and no
    healthcheck pending, an idle timeout only writes the healthcheck frame;
    its write callback sets the pending flag and arms the grace timer; a
    second idle timeout with no data in between destroys the socket.  Over
    the three events the only destroy is the last action. *)
Theorem idle_timeout_twice_destroys_on_second :
  forall (cfg : Config) (s : Session),
    exited s = false -> gateState s <> OPEN -> healthCheckWaitResponse s = false ->
    step cfg s EvTimeout = (s, [AWrite HEALTHCHECK_CMD])
    /\ healthCheckWaitResponse (fst (step cfg s (EvHcWritten true))) = true
    /\ snd (run cfg s [EvTimeout; EvHcWritten true; EvTimeout])
       = [AWrite HEALTHCHECK_CMD; AArmGrace; ADestroy].
Proof.
  intros cfg s Hex Hgate Hhc.
  assert (Hg : GateState_eqb (gateState s) OPEN = false).
  { destruct (gateState s); [reflexivity|reflexivity|congruence|reflexivity]. }
  split; [|split].
  - unfold step. rewrite Hex, Hg, Hhc. reflexivity.
  - unfold step. rewrite Hex. reflexivity.
  - simpl. unfold step at 1. rewrite Hex, Hg, Hhc.
    unfold step at 1. rewrite Hex.
    unfold step at 1. simpl. rewrite Hex, Hg. reflexivity.
Qed.

Lemma idle_timeout_twice_destroys_on_second_witness :
  snd (run cfg_default s_retry2 [EvTimeout; EvHcWritten true; EvTimeout])
  = [AWrite HEALTHCHECK_CMD; AArmGrace; ADestroy].
Proof.
  apply (idle_timeout_twice_destroys_on_second cfg_default s_retry2);
    [reflexivity|discriminate|reflexivity].
Defined.

(** *** Gate open at an idle timeout *)

(** No handler ever sets the module-level [gateState] to OPEN. *)
Lemma module_gateState_never_open cfg s e :
  gateState s <> OPEN -> gateState (fst (step cfg s e)) <> OPEN.
Proof.
  intros H. unfold step.
  destruct (exited s); [exact H|].
  destruct e; cbv beta iota zeta; split_branches; simpl;
    solve [exact H | discriminate].
Qed.

(** With [GATE_TIMEOUT_TO_CLOSE=20000] (longer than the 10 s idle
    timeout): connect, an authorized tag is read and the gate opened at
    time 100, then the socket stays idle. *)
Definition cfg_long_open : Config := loadConfig None None (Some 20000).

Definition open_then_idle : list Event :=
  [EvConnect; EvData TAG_FRAME; EvTagValidated true 100; EvTimeout].

(** C9 (code defect): in this run the controller's gate is OPEN (its
    auto-close is due at 20100) when the idle timeout fires, yet the
    timeout handler, which tests the module-level [gateState] that no
    handler sets to OPEN, only sends a healthcheck and destroys nothing. *)
Theorem idle_timeout_with_open_gate_not_destroyed :
  Gate.state (gateController (fst (run cfg_long_open (initSession cfg_long_open) open_then_idle)))
    = Gate.OPEN
  /\ Gate.closesAt (gateController (fst (run cfg_long_open (initSession cfg_long_open) open_then_idle)))
    = Some 20100
  /\ gateState (fst (run cfg_long_open (initSession cfg_long_open) open_then_idle)) = CLOSED
  /\ snd (run cfg_long_open (initSession cfg_long_open) open_then_idle)
     = [AWrite Gate.RELAY_CLOSE_CMD; AHandleTagRead "0012345678"; AWrite HEALTHCHECK_CMD]
  /\ ~ In ADestroy (snd (run cfg_long_open (initSession cfg_long_open) open_then_idle)).
Proof.
  vm_compute. repeat split; try reflexivity.
  intros [H|[H|[H|[]]]]; discriminate.
Qed.

(** *** Access registration *)

(** C10: [registerAccess] always settles to a boolean, [true] exactly on
    an ok response, and leaves the rest of the session (the tag cache, the
    gate controller and the session variables) as it was. *)
Theorem registerAccess_total :
  forall (t antennaId : string) (resp : Validator.RegisterResponse) (s : Session),
    snd (registerAccessStep t antennaId resp s) = s
    /\ (fst (registerAccessStep t antennaId resp s) = true <-> resp = Validator.RegisterOk).
Proof.
  intros t antennaId resp s. destruct s.
  destruct resp; simpl; repeat split; intros H; try discriminate; reflexivity.
Qed.

End AntennaProofs.

(* ------------------------------------------------------------------ *)
(** ** Further properties of the tag validator *)

Module ValidatorExtra.
Import Validator ValidatorProofs.
Local Open Scope string_scope.

(** Character facts, checked over all 256 characters. *)
Ltac all_ascii :=
  let c := fresh "c" in
  intros c; destruct c as [[] [] [] [] [] [] [] []]; vm_compute;
  first [reflexivity | intros H; discriminate H | intros H; reflexivity].

Lemma hex_toUpper_upper c : isHexChar c = true -> isUpperHexChar (toUpperChar c) = true.
Proof. revert c. all_ascii. Qed.

Lemma upper_is_hex c : isUpperHexChar c = true -> isHexChar c = true.
Proof. revert c. all_ascii. Qed.

Lemma upper_toUpper_fixed c : isUpperHexChar c = true -> toUpperChar c = c.
Proof. revert c. all_ascii. Qed.

Lemma sanitize_upper s : all_chars isUpperHexChar (sanitizeTag s) = true.
Proof.
  unfold sanitizeTag. induction s as [|c s IH]; simpl; [reflexivity|].
  destruct (isHexChar c) eqn:Hc; simpl; [|exact IH].
  rewrite hex_toUpper_upper by exact Hc. exact IH.
Qed.

Lemma strip_upper_fixed s : all_chars isUpperHexChar s = true -> stripNonHex s = s.
Proof.
  induction s as [|c s IH]; simpl; intros H; [reflexivity|].
  apply andb_prop in H as [Hc Hs].
  rewrite (upper_is_hex c Hc), IH by exact Hs. reflexivity.
Qed.

Lemma toUpper_upper_fixed s : all_chars isUpperHexChar s = true -> toUpperCase s = s.
Proof.
  induction s as [|c s IH]; simpl; intros H; [reflexivity|].
  apply andb_prop in H as [Hc Hs].
  rewrite (upper_toUpper_fixed c Hc), IH by exact Hs. reflexivity.
Qed.

(** X1: [sanitizeTag] returns only characters of [A-F0-9], and sanitizing
    a sanitized tag changes nothing. *)
Theorem sanitizeTag_upper_idempotent :
  forall s : string,
    all_chars isUpperHexChar (sanitizeTag s) = true
    /\ sanitizeTag (sanitizeTag s) = sanitizeTag s.
Proof.
  intros s. split; [apply sanitize_upper|].
  pose proof (sanitize_upper s) as H.
  unfold sanitizeTag at 1. rewrite strip_upper_fixed by exact H.
  apply toUpper_upper_fixed. exact H.
Qed.

(** X2: after sanitizing, the format check depends only on the length: a
    sanitized tag passes it exactly when it has 8 to 16 characters and an
    even number of them. *)
Theorem sanitized_format_iff_length :
  forall s : string,
    isValidTagFormat (sanitizeTag s) = true
    <-> (8 <= String.length (sanitizeTag s) <= 16)%nat
        /\ Nat.even (String.length (sanitizeTag s)) = true.
Proof.
  intros s. split.
  - intros H. apply isValidTagFormat_length in H as [H1 [H2 H3]]. auto.
  - intros [[H1 H2] H3]. unfold isValidTagFormat.
    rewrite sanitize_upper, H3.
    apply Nat.leb_le in H1, H2. rewrite H1, H2. reflexivity.
Qed.

(** X3: a well-formed tag with a cache entry no older than the TTL (age
    equal to the TTL included) is answered from the cache: no verification
    call, the cached decision, and the validator unchanged. *)
Theorem validate_cache_hit :
  forall (raw : string) (now : Z) (resp : VerifyResponse) (tv : TagValidator)
         (c : TagCache),
    isValidTagFormat (sanitizeTag raw) = true ->
    map_get (sanitizeTag raw) (tagCache tv) = Some c ->
    now - validatedAt c <= cacheTimeout tv ->
    apiCalls (validateTag raw now resp tv) = 0%nat
    /\ validator (validateTag raw now resp tv) = tv
    /\ isValid (result (validateTag raw now resp tv)) = c_isValid c.
Proof.
  intros raw now resp tv c Hf Hg Hage.
  unfold validateTag. rewrite Hf. cbn [negb].
  unfold getCachedValidation. rewrite Hg.
  destruct (Z.gtb_spec (now - validatedAt c) (cacheTimeout tv)); [lia|].
  repeat split.
Qed.

Lemma validate_cache_hit_witness :
  apiCalls (validateTag "E2000017" 300000 VerifyAborted
              (validator (validateTag "E2000017" 0 (VerifyOk (Some true) None)
                            newTagValidator))) = 0%nat.
Proof.
  apply (validate_cache_hit "E2000017" 300000 VerifyAborted
           (validator (validateTag "E2000017" 0 (VerifyOk (Some true) None)
                         newTagValidator))
           (mkTC "E2000017" 0 true)); vm_compute; first [reflexivity | discriminate].
Defined.

(** X4: on a cache miss the decision fails closed: the result is valid
    exactly when the service answered ok with [authorized: true]; when the
    service answered ok at all, the cache then holds that decision for the
    sanitized tag, stamped with the current time. *)
Theorem validate_miss_fail_closed :
  forall (raw : string) (now : Z) (resp : VerifyResponse) (tv : TagValidator),
    isValidTagFormat (sanitizeTag raw) = true ->
    fst (getCachedValidation (sanitizeTag raw) now tv) = None ->
    (isValid (result (validateTag raw now resp tv)) = true
     <-> exists r, resp = VerifyOk (Some true) r)
    /\ (verifyReturned resp = true ->
        map_get (sanitizeTag raw) (tagCache (validator (validateTag raw now resp tv)))
        = Some (mkTC (sanitizeTag raw) now (isValid (result (validateTag raw now resp tv))))).
Proof.
  intros raw now resp tv Hf Hmiss.
  pose proof (getCachedValidation_none _ _ _ Hmiss) as [Hget _].
  destruct (getCachedValidation (sanitizeTag raw) now tv) as [c tv1] eqn:Eg.
  simpl in Hmiss, Hget. subst c.
  unfold validateTag. rewrite Hf, Eg. cbn [negb].
  destruct resp as [auth r|st| | |m]; cbn [validateViaAPI result validator isValid verifyReturned].
  - split.
    + destruct auth as [[]|]; split; intros H;
        [eauto|reflexivity|discriminate H|destruct H as [? Hx]; discriminate Hx
        |discriminate H|destruct H as [? Hx]; discriminate Hx].
    + intros _. cbn [tagCache with_cache]. apply updateCache_get. exact Hget.
  - split; [split; [discriminate|intros [x Hx]; discriminate Hx]|discriminate].
  - split; [split; [discriminate|intros [x Hx]; discriminate Hx]|discriminate].
  - split; [split; [discriminate|intros [x Hx]; discriminate Hx]|discriminate].
  - split; [split; [discriminate|intros [x Hx]; discriminate Hx]|discriminate].
Qed.

Lemma validate_miss_fail_closed_witness :
  isValid (result (validateTag "E2000017" 0 (VerifyOk (Some false) (Some "blocked"%string))
                     newTagValidator)) = false.
Proof.
  destruct (validate_miss_fail_closed "E2000017" 0 (VerifyOk (Some false) (Some "blocked"%string))
              newTagValidator) as [[H _] _]; [reflexivity|reflexivity|].
  destruct (isValid _) eqn:E; [|reflexivity].
  destruct (H eq_refl) as [x Hx]. discriminate Hx.
Defined.

(** X5: looking up an entry older than the TTL reports a miss and deletes
    that entry, leaving every other entry as it was. *)
Theorem getCached_expired_deletes :
  forall (t : string) (now : Z) (tv : TagValidator) (c : TagCache),
    map_get t (tagCache tv) = Some c ->
    cacheTimeout tv < now - validatedAt c ->
    fst (getCachedValidation t now tv) = None
    /\ map_get t (tagCache (snd (getCachedValidation t now tv))) = None
    /\ (forall k, k <> t ->
        map_get k (tagCache (snd (getCachedValidation t now tv))) = map_get k (tagCache tv)).
Proof.
  intros t now tv c Hg Hage. unfold getCachedValidation. rewrite Hg.
  destruct (Z.gtb_spec (now - validatedAt c) (cacheTimeout tv)); [|lia].
  cbn [fst snd tagCache with_cache]. split; [reflexivity|]. split.
  - apply map_get_delete_eq.
  - intros k Hk. apply map_get_delete_neq. exact Hk.
Qed.

Lemma getCached_expired_deletes_witness :
  fst (getCachedValidation "E2000017" 300001
         (validator (validateTag "E2000017" 0 (VerifyOk (Some true) None) newTagValidator)))
  = None.
Proof.
  apply (getCached_expired_deletes "E2000017" 300001
           (validator (validateTag "E2000017" 0 (VerifyOk (Some true) None) newTagValidator))
           (mkTC "E2000017" 0 true)); vm_compute; reflexivity.
Defined.

Lemma map_get_set_eq k v m : map_get k (map_set k v m) = Some v.
Proof.
  induction m as [|[k' v'] r IH]; simpl.
  - rewrite String.eqb_refl. reflexivity.
  - destruct (String.eqb_spec k k') as [->|Hne]; simpl.
    + rewrite String.eqb_refl. reflexivity.
    + rewrite (proj2 (String.eqb_neq k k') Hne). exact IH.
Qed.

(** X6: refreshing a tag that is already cached (under the capacity
    bound) replaces its entry in place: the insertion order of the keys is
    unchanged, so eviction stays oldest-inserted-first rather than LRU. *)
Theorem updateCache_refresh_in_place :
  forall (k : string) (ok : bool) (now : Z) (m : CacheMap),
    (length m <= 100)%nat -> In k (map_keys m) ->
    map_keys (updateCache k ok now m) = map_keys m
    /\ map_get k (updateCache k ok now m) = Some (mkTC k now ok).
Proof.
  intros k ok now m Hl Hin. unfold updateCache.
  assert (Hlen : length (map_set k (mkTC k now ok) m) = length m).
  { rewrite <- !map_keys_length, map_set_present_keys by exact Hin. reflexivity. }
  rewrite Hlen. destruct (Nat.ltb_spec 100 (length m)); [lia|].
  split; [apply map_set_present_keys; exact Hin|apply map_get_set_eq].
Qed.

Lemma updateCache_refresh_in_place_witness :
  map_keys (updateCache "AA000001" false 9 [("AA000001", mkTC "AA000001" 0 true);
                                            ("BB000002", mkTC "BB000002" 1 true)])
  = ["AA000001"; "BB000002"]%string.
Proof.
  apply (updateCache_refresh_in_place "AA000001" false 9
           [("AA000001", mkTC "AA000001" 0 true); ("BB000002", mkTC "BB000002" 1 true)]).
  - simpl. lia.
  - left. reflexivity.
Defined.

Lemma fold_delete_filter ks m :
  fold_left (fun m k => map_delete k m) ks m
  = filter (fun p => negb (existsb (String.eqb (fst p)) ks)) m.
Proof.
  revert m. induction ks as [|k ks IH]; intros m; simpl.
  - induction m as [|p r IHm]; simpl; [reflexivity|]. f_equal. exact IHm.
  - rewrite IH. unfold map_delete.
    induction m as [|p r IHm]; simpl; [reflexivity|].
    destruct (String.eqb (fst p) k); simpl; rewrite IHm; reflexivity.
Qed.

Lemma nodup_keys_unique m p q :
  NoDup (map_keys m) -> In p m -> In q m -> fst p = fst q -> p = q.
Proof.
  induction m as [|x r IH]; simpl; [tauto|].
  intros Hnd Hp Hq Hf. inversion Hnd as [|? ? Hnin Hnd']; subst.
  destruct Hp as [<-|Hp], Hq as [<-|Hq]; auto.
  - exfalso. apply Hnin. rewrite Hf. apply in_map. exact Hq.
  - exfalso. apply Hnin. rewrite <- Hf. apply in_map. exact Hp.
Qed.

(** X7: [cleanExpiredCache] removes exactly the entries older than the TTL
    and keeps the others in their insertion order (for a cache whose keys
    are distinct, as every reachable cache's are). *)
Theorem cleanExpiredCache_filters :
  forall (now : Z) (tv : TagValidator),
    NoDup (map_keys (tagCache tv)) ->
    tagCache (cleanExpiredCache now tv)
    = filter (fun p => negb (now - validatedAt (snd p) >? cacheTimeout tv)) (tagCache tv).
Proof.
  intros now tv Hnd. unfold cleanExpiredCache. cbn [tagCache with_cache].
  rewrite fold_delete_filter. apply filter_ext_in. intros a Ha. f_equal.
  set (E := fun p : string * TagCache => now - validatedAt (snd p) >? cacheTimeout tv).
  change (now - validatedAt (snd a) >? cacheTimeout tv) with (E a).
  destruct (E a) eqn:Ea.
  - apply existsb_exists. exists (fst a). split; [|apply String.eqb_refl].
    apply in_map. apply filter_In. split; assumption.
  - destruct (existsb (String.eqb (fst a)) (map fst (filter E (tagCache tv)))) eqn:Ex;
      [|reflexivity].
    apply existsb_exists in Ex as [x [Hx Heq]].
    apply in_map_iff in Hx as [q [Hq Hqin]]. apply filter_In in Hqin as [Hqm Eq].
    apply String.eqb_eq in Heq. subst x.
    rewrite (nodup_keys_unique (tagCache tv) a q Hnd Ha Hqm Heq) in Ea. congruence.
Qed.

Lemma cleanExpiredCache_filters_witness :
  map_keys (tagCache (cleanExpiredCache 400000
    {| tagCache := [("AA000001", mkTC "AA000001" 0 true);
                    ("BB000002", mkTC "BB000002" 200000 false);
                    ("CC000003", mkTC "CC000003" 50000 true)];
       cacheTimeout := 300000; apiBaseUrl := ""; apiTimeout := 5000 |}))
  = ["BB000002"].
Proof.
  rewrite cleanExpiredCache_filters.
  - reflexivity.
  - vm_compute. repeat constructor; simpl; intuition discriminate.
Defined.

(** X8: [invalidateTag] reports whether an entry existed under the
    sanitized tag and removes it, so the next [validateTag] of any spelling
    with the same sanitized form (and a valid format) calls the service. *)
Theorem invalidate_then_validate :
  forall (raw raw' : string) (now : Z) (resp : VerifyResponse) (tv : TagValidator),
    (fst (invalidateTag raw tv) = true <-> map_get (sanitizeTag raw) (tagCache tv) <> None)
    /\ map_get (sanitizeTag raw) (tagCache (snd (invalidateTag raw tv))) = None
    /\ (sanitizeTag raw' = sanitizeTag raw -> isValidTagFormat (sanitizeTag raw) = true ->
        apiCalls (validateTag raw' now resp (snd (invalidateTag raw tv))) = 1%nat).
Proof.
  intros raw raw' now resp tv. unfold invalidateTag. cbn [fst snd tagCache with_cache].
  split; [|split].
  - destruct (map_get (sanitizeTag raw) (tagCache tv)); split; intros H;
      congruence.
  - apply map_get_delete_eq.
  - intros Hs Hf. unfold validateTag. rewrite Hs, Hf. cbn [negb].
    unfold getCachedValidation. cbn [tagCache with_cache].
    rewrite map_get_delete_eq.
    destruct (validateViaAPI (sanitizeTag raw) now resp); reflexivity.
Qed.

Lemma invalidate_then_validate_witness :
  apiCalls (validateTag "E2000017" 10 VerifyAborted
              (snd (invalidateTag "e2:00:00:17"
                      (validator (validateTag "E2000017" 0 (VerifyOk (Some true) None)
                                    newTagValidator))))) = 1%nat.
Proof.
  apply (invalidate_then_validate "e2:00:00:17" "E2000017" 10 VerifyAborted
           (validator (validateTag "E2000017" 0 (VerifyOk (Some true) None)
                         newTagValidator))); reflexivity.
Defined.

Lemma applyOp_timeout tv op : cacheTimeout (applyOp tv op) = cacheTimeout tv.
Proof.
  destruct op as [raw now resp|raw| |now]; simpl; try reflexivity.
  unfold validateTag.
  destruct (negb (isValidTagFormat (sanitizeTag raw))); [reflexivity|].
  unfold getCachedValidation.
  destruct (map_get (sanitizeTag raw) (tagCache tv)) as [c|].
  - destruct (now - validatedAt c >? cacheTimeout tv); simpl; [|reflexivity].
    destruct (validateViaAPI (sanitizeTag raw) now resp); reflexivity.
  - destruct (validateViaAPI (sanitizeTag raw) now resp); reflexivity.
Qed.

(** X9: for a validator built with the defaults, [getCacheStats] reports a
    size of at most 100 and a timeout of 300000 ms after any sequence of
    validations, invalidations, clears and expiry sweeps. *)
Theorem getCacheStats_bounded :
  forall ops : list CacheOp,
    (fst (getCacheStats (runValidator newTagValidator ops)) <= 100)%nat
    /\ snd (getCacheStats (runValidator newTagValidator ops)) = 300000%Z.
Proof.
  intros ops. unfold getCacheStats. cbn [fst snd]. split.
  - apply runValidator_ok. split; [simpl; lia|constructor].
  - unfold runValidator.
    assert (H : forall tv, cacheTimeout (fold_left applyOp ops tv) = cacheTimeout tv).
    { induction ops as [|op r IH]; intros tv; simpl; [reflexivity|].
      rewrite IH. apply applyOp_timeout. }
    rewrite H. reflexivity.
Qed.

End ValidatorExtra.

(* ------------------------------------------------------------------ *)
(** ** Further properties of the gate controller *)

Module GateExtra.
Import Gate GateProofs.

(** X10: from CLOSED with a live socket, an [openGate] without override
    arms the auto-close for [openDurationMs]; when it fires, [closeGate]
    writes the relay-close frame, clears the timer and moves to CLOSING,
    where a new [openGate] is rejected; when the settle timer fires the
    state is CLOSED and the next [openGate] is accepted.  The socket has
    received exactly the open and close frames. *)
Theorem open_autoclose_settle_cycle :
  forall (g : GateController) (now t : Z),
    state g = CLOSED -> socketDestroyed g = false ->
    let g1 := snd (openGate None now g) in
    let g2 := snd (autoCloseFires (now + openDurationMs g) g1) in
    let g3 := settleFires g2 in
    closesAt g1 = Some (now + openDurationMs g)
    /\ fst (autoCloseFires (now + openDurationMs g) g1) = true
    /\ state g2 = CLOSING /\ closesAt g2 = None
    /\ openGate None t g2 = (false, g2)
    /\ state g3 = CLOSED
    /\ written g3 = written g ++ [relayOpenCmd g; relayCloseCmd g]
    /\ fst (openGate None t g3) = true.
Proof.
  intros g now t Hs Hd g1 g2 g3.
  assert (E1 : openGate None now g
               = (true, {| state := OPEN;
                           openTimer := Some (mkTimer now (openDurationMs g));
                           settleTimers := settleTimers g;
                           relayOpenCmd := relayOpenCmd g;
                           relayCloseCmd := relayCloseCmd g;
                           socketDestroyed := socketDestroyed g;
                           written := written g ++ [relayOpenCmd g];
                           openDurationMs := openDurationMs g |})).
  { unfold openGate, sendCommand. rewrite Hs, Hd. reflexivity. }
  subst g1 g2 g3. rewrite E1. cbn [snd].
  unfold autoCloseFires, closeGate, sendCommand. cbn [state socketDestroyed GateState_eqb negb].
  rewrite Hd. cbn.
  unfold settleFires. cbn.
  destruct (settleTimers g ++ [mkTimer (now + openDurationMs g) 1000]) eqn:E.
  { apply app_eq_nil in E as [_ E]. discriminate E. }
  cbn. unfold openGate, sendCommand. cbn.
  rewrite <- app_assoc. repeat split.
Qed.

Lemma open_autoclose_settle_cycle_witness :
  state (settleFires (snd (autoCloseFires 5000 (snd (openGate None 0 (g_fresh false))))))
  = CLOSED.
Proof.
  destruct (open_autoclose_settle_cycle (g_fresh false) 0 0 eq_refl eq_refl)
    as [_ [_ [_ [_ [_ [H _]]]]]].
  exact H.
Defined.

(** The first [k] relay frames of the alternation open, close, open, ... *)
Fixpoint relayFrames (k : nat) : list string :=
  match k with
  | O => []
  | S k' => relayFrames k' ++ [if Nat.even k' then RELAY_OPEN_CMD else RELAY_CLOSE_CMD]
  end.

Definition gate_inv (g : GateController) (k : nat) : Prop :=
  written g = relayFrames k
  /\ relayOpenCmd g = RELAY_OPEN_CMD /\ relayCloseCmd g = RELAY_CLOSE_CMD
  /\ ((state g = OPEN /\ Nat.odd k = true /\ settleTimers g = [])
      \/ (state g = CLOSED /\ Nat.even k = true /\ settleTimers g = [])
      \/ (state g = CLOSING /\ Nat.even k = true /\ exists t, settleTimers g = [t])).

Lemma gate_inv_event g k e :
  gate_inv g k -> exists k', gate_inv (applyGateEvent g e) k'.
Proof.
  intros HI. pose proof HI as [Hw [Ho [Hc Hst]]].
  destruct e as [ov now|now|]; simpl.
  - unfold openGate.
    destruct Hst as [[Hs [Hk Ht]]|[[Hs [Hk Ht]]|[Hs [Hk [t Ht]]]]]; rewrite Hs;
      cbn [GateState_eqb negb]; try (exists k; exact HI).
    unfold sendCommand. destruct (socketDestroyed g); [exists k; exact HI|].
    exists (S k). unfold gate_inv. cbn [written state settleTimers relayOpenCmd relayCloseCmd snd].
    rewrite Hw, Ho, Hc. cbn [relayFrames]. rewrite Hk, Nat.odd_succ.
    repeat split. left. auto.
  - unfold closeGate.
    destruct Hst as [[Hs [Hk Ht]]|[[Hs [Hk Ht]]|[Hs [Hk [t Ht]]]]]; rewrite Hs;
      cbn [GateState_eqb negb]; try (exists k; exact HI).
    unfold sendCommand. destruct (socketDestroyed g); [exists k; exact HI|].
    exists (S k). unfold gate_inv. cbn [written state settleTimers relayOpenCmd relayCloseCmd snd].
    assert (He : Nat.even k = false) by (rewrite <- Nat.negb_odd, Hk; reflexivity).
    rewrite Hw, Ho, Hc, Ht. cbn [relayFrames]. rewrite He, Nat.even_succ.
    repeat split. right. right. split; [reflexivity|]. split; [exact Hk|].
    exists (mkTimer now 1000). reflexivity.
  - unfold settleFires.
    destruct Hst as [[Hs [Hk Ht]]|[[Hs [Hk Ht]]|[Hs [Hk [t Ht]]]]]; rewrite Ht;
      try (exists k; exact HI).
    exists k. unfold gate_inv. cbn [written state settleTimers relayOpenCmd relayCloseCmd].
    repeat split; auto.
Qed.

(** X11: from construction, whatever sequence of opens, closes (manual or
    automatic) and settle timers occurs, the relay frames written to the
    socket alternate open, close, open, ...; the gate is OPEN exactly when
    the last frame written is an open; it is CLOSING exactly when a settle
    timer is pending, and at most one is; OPENING is never observed. *)
Theorem relay_frames_alternate :
  forall (openDuration : option Z) (destroyed : bool) (es : list GateEvent),
    let g := runGateEvents (newGateController openDuration destroyed) es in
    exists k, written g = relayFrames k
      /\ (state g = OPEN <-> Nat.odd k = true)
      /\ (state g = CLOSING <-> settleTimers g <> [])
      /\ (length (settleTimers g) <= 1)%nat
      /\ state g <> OPENING.
Proof.
  intros d ds es g.
  assert (H : forall g0 k, gate_inv g0 k -> exists k', gate_inv (runGateEvents g0 es) k').
  { unfold runGateEvents. induction es as [|e r IH]; intros g0 k Hi; simpl; [eauto|].
    destruct (gate_inv_event g0 k e Hi) as [k1 Hk1]. exact (IH _ _ Hk1). }
  destruct (H (newGateController d ds) 0%nat) as [k [Hw [_ [_ Hst]]]].
  { unfold gate_inv. simpl. repeat split; auto. }
  exists k. fold g in Hw, Hst. split; [exact Hw|].
  destruct Hst as [[Hs [Hk Ht]]|[[Hs [Hk Ht]]|[Hs [Hk [t Ht]]]]]; rewrite Hs, Ht;
    repeat split; try discriminate; try (intros; congruence); try (simpl; lia).
  - intros Ho. rewrite <- Nat.negb_even, Hk in Ho. discriminate Ho.
  - intros Ho. rewrite <- Nat.negb_even, Hk in Ho. discriminate Ho.
Qed.

(** X12: once its socket is destroyed a controller is frozen: no sequence
    of [openGate] and [closeGate] calls (auto-close included) changes its
    state, timers or written frames; a gate left OPEN stays OPEN. *)
Theorem destroyed_socket_freezes_gate :
  forall (g : GateController) (ops : list GateOp),
    socketDestroyed g = true -> runGate g ops = g.
Proof.
  intros g ops Hd. unfold runGate. induction ops as [|op r IH]; simpl; [reflexivity|].
  assert (Hop : applyGateOp g op = g).
  { destruct op as [ov now|now]; simpl.
    - unfold openGate, sendCommand. rewrite Hd.
      destruct (negb (GateState_eqb (state g) CLOSED)); reflexivity.
    - unfold closeGate, sendCommand. rewrite Hd.
      destruct (negb (GateState_eqb (state g) OPEN)); reflexivity. }
  rewrite Hop. exact IH.
Qed.

Lemma destroyed_socket_freezes_gate_witness :
  state (runGate (snd (openGate None 0 (newGateController None false))) [] ) = OPEN
  /\ runGate (newGateController None true) [GOpen None 0; GClose 8000]
     = newGateController None true.
Proof.
  split; [reflexivity|].
  apply destroyed_socket_freezes_gate. reflexivity.
Defined.

End GateExtra.

(* ------------------------------------------------------------------ *)
(** ** Further properties of the antenna supervisor and the HTTP handlers *)

Module AntennaExtra.
Import Antenna AntennaProofs Validator ValidatorExtra.

Lemma run_cons cfg s e r :
  run cfg s (e :: r)
  = (fst (run cfg (fst (step cfg s e)) r),
     snd (step cfg s e) ++ snd (run cfg (fst (step cfg s e)) r)).
Proof.
  simpl. destruct (step cfg s e) as [s1 a1]. simpl.
  destruct (run cfg s1 r) as [s2 a2]. reflexivity.
Qed.

Lemma openGate_rejected_unchanged ov now g :
  fst (Gate.openGate ov now g) = false -> snd (Gate.openGate ov now g) = g.
Proof.
  unfold Gate.openGate. destruct (negb _); [reflexivity|].
  destruct (Gate.sendCommand _ _); simpl; [discriminate|reflexivity].
Qed.

Lemma closeGate_rejected_unchanged now g :
  fst (Gate.closeGate now g) = false -> snd (Gate.closeGate now g) = g.
Proof.
  unfold Gate.closeGate. destruct (negb _); [reflexivity|].
  destruct (Gate.sendCommand _ _); simpl; [discriminate|reflexivity].
Qed.

(** X13: the HTTP handlers answer 200 exactly when a controller exists
    and 500 exactly when none does (before the first [connectToAntenna]):
    the answer does not depend on whether the controller accepted the
    command, and a rejected command leaves the controller unchanged. *)
Theorem http_gate_status :
  forall (autoCloseTime : option Z) (gc : option Gate.GateController) (now : Z),
    (fst (httpOpenGate autoCloseTime gc now) = 200 <-> gc <> None)
    /\ (fst (httpOpenGate autoCloseTime gc now) = 500 <-> gc = None)
    /\ (fst (httpCloseGate gc now) = 200 <-> gc <> None)
    /\ (fst (httpCloseGate gc now) = 500 <-> gc = None)
    /\ (forall g, gc = Some g -> fst (Gate.openGate None now g) = false ->
        snd (httpOpenGate autoCloseTime gc now) = Some g)
    /\ (forall g, gc = Some g -> fst (Gate.closeGate now g) = false ->
        snd (httpCloseGate gc now) = Some g).
Proof.
  intros a gc now.
  destruct gc as [g|]; unfold httpOpenGate, httpCloseGate, managerOpenGate, managerCloseGate;
    cbn [fst snd].
  - repeat split; try discriminate; try (intros H; discriminate H).
    + intros g' Hg Hr. injection Hg as <-.
      rewrite (openGate_rejected_unchanged None now g Hr). reflexivity.
    + intros g' Hg Hr. injection Hg as <-.
      rewrite (closeGate_rejected_unchanged now g Hr). reflexivity.
  - repeat split; try discriminate; try (intros H; congruence); try (intros; discriminate).
Qed.

Lemma http_gate_status_witness :
  fst (httpOpenGate (Some 60000) (Some GateProofs.g_opened) 0) = 200
  /\ snd (httpOpenGate (Some 60000) (Some GateProofs.g_opened) 0) = Some GateProofs.g_opened.
Proof.
  destruct (http_gate_status (Some 60000) (Some GateProofs.g_opened) 0)
    as [[_ H1] [_ [_ [_ [H5 _]]]]].
  split; [apply H1; discriminate|].
  apply H5; reflexivity.
Defined.

Lemma step_keeps_closed cfg s e :
  gateState s = CLOSED -> gateState (fst (step cfg s e)) = CLOSED.
Proof.
  intros H. unfold step.
  destruct (exited s); [exact H|].
  destruct e; cbv beta iota zeta; split_branches; simpl; first [exact H | reflexivity].
Qed.

(** X14: the [getGateState] getter answers "closed" after every run of
    events from process start, whatever the controller does. *)
Theorem getGateState_always_closed :
  forall (cfg : Config) (es : list Event),
    getGateState (fst (run cfg (initSession cfg) es)) = "closed"%string.
Proof.
  intros cfg es.
  assert (H : forall s, gateState s = CLOSED -> gateState (fst (run cfg s es)) = CLOSED).
  { induction es as [|e r IH]; intros s Hs; [exact Hs|].
    rewrite run_cons. simpl. apply IH. apply step_keeps_closed. exact Hs. }
  unfold getGateState. rewrite H by reflexivity. reflexivity.
Qed.

(** X15: a reconnect attempt replaces both global instances: the new
    controller is CLOSED with nothing pending and the [openDurationMs] of
    the configuration, and the tag cache is empty, so the next well-formed
    tag is checked with the authorization service again. *)
Theorem reconnect_fresh_instances :
  forall (cfg : Config) (s : Session) (raw : string) (now : Z)
         (resp : VerifyResponse),
    exited s = false ->
    isValidTagFormat (sanitizeTag raw) = true ->
    let s1 := fst (step cfg s EvReconnectTimer) in
    Gate.state (gateController s1) = Gate.CLOSED
    /\ Gate.closesAt (gateController s1) = None
    /\ Gate.settleTimers (gateController s1) = []
    /\ tagCache (tagValidator s1) = []
    /\ apiCalls (validateTag raw now resp (tagValidator s1)) = 1%nat.
Proof.
  intros cfg s raw now resp Hex Hf s1.
  subst s1. unfold step. rewrite Hex. cbn [fst gateController tagValidator].
  repeat split.
  unfold validateTag. rewrite Hf. cbn [negb].
  unfold getCachedValidation. cbn.
  destruct (validateViaAPI _ _ _); reflexivity.
Qed.

Lemma reconnect_fresh_instances_witness :
  apiCalls (validateTag "E2000017"%string 0 VerifyAborted
              (tagValidator (fst (step cfg_default s_retry2 EvReconnectTimer))))
  = 1%nat.
Proof.
  destruct (reconnect_fresh_instances cfg_default s_retry2 "E2000017"%string 0 VerifyAborted)
    as [_ [_ [_ [_ H]]]]; [reflexivity|vm_compute; reflexivity|].
  exact H.
Defined.

(** X16: while a reconnect is pending ([isReconnecting]) and the retry
    budget is not exceeded, close events and reconnect attempts produce no
    action at all: no further reconnect is scheduled and the process does
    not exit.  Since only a successful connect clears [isReconnecting], an
    attempt whose socket closes without connecting leaves the supervisor
    without any reconnect. *)
Theorem reconnect_pending_stalls :
  forall (cfg : Config) (s : Session) (es : list Event),
    isReconnecting s = true -> exited s = false ->
    (ATTEMPT_RECONNECT cfg <? connectionRetry s) = false ->
    Forall (fun e => e = EvClose \/ e = EvReconnectTimer) es ->
    snd (run cfg s es) = []
    /\ isReconnecting (fst (run cfg s es)) = true
    /\ exited (fst (run cfg s es)) = false
    /\ connectionRetry (fst (run cfg s es)) = connectionRetry s.
Proof.
  intros cfg s es Hr Hx Hb Hes. revert s Hr Hx Hb.
  induction Hes as [|e r He Hes IH]; intros s Hr Hx Hb; [auto|].
  rewrite run_cons.
  assert (Hstep : snd (step cfg s e) = []
                  /\ isReconnecting (fst (step cfg s e)) = true
                  /\ exited (fst (step cfg s e)) = false
                  /\ connectionRetry (fst (step cfg s e)) = connectionRetry s).
  { unfold step. rewrite Hx.
    destruct He as [-> | ->]; cbn.
    - rewrite Hb, Hr. cbn. auto.
    - auto. }
  destruct Hstep as [Ha [Hr1 [Hx1 Hc1]]].
  destruct (IH (fst (step cfg s e)) Hr1 Hx1) as [Ha2 [Hr2 [Hx2 Hc2]]];
    [rewrite Hc1; exact Hb|].
  cbn [fst snd]. rewrite Ha, Ha2, Hc2, Hc1. auto.
Qed.

Lemma reconnect_pending_stalls_witness :
  snd (run cfg_default (fst (step cfg_default (initSession cfg_default) EvClose))
         [EvReconnectTimer; EvClose; EvReconnectTimer; EvClose]) = [].
Proof.
  apply (reconnect_pending_stalls cfg_default
           (fst (step cfg_default (initSession cfg_default) EvClose))
           [EvReconnectTimer; EvClose; EvReconnectTimer; EvClose]);
    [reflexivity | reflexivity | reflexivity |].
  repeat apply Forall_cons; try apply Forall_nil; auto.
Defined.

Lemma step_data_facts cfg s h :
  exited s = false ->
  exited (fst (step cfg s (EvData h))) = false
  /\ healthCheckWaitResponse (fst (step cfg s (EvData h))) = false
  /\ (gateState (fst (step cfg s (EvData h))) = gateState s
      \/ gateState (fst (step cfg s (EvData h))) = CLOSED).
Proof.
  intros Hex. unfold step. rewrite Hex. cbv beta iota zeta.
  destruct (classify h) as [|[]| | | |]; cbn; auto.
Qed.

(** X17: any received frame clears a pending healthcheck (a failed filter
    ack also destroys the socket): the 3 s grace timer then does nothing,
    and with the module [gateState] not OPEN the next idle timeout sends a
    new healthcheck instead of destroying the socket. *)
Theorem data_clears_pending_healthcheck :
  forall (cfg : Config) (s : Session) (h : string),
    exited s = false -> gateState s <> OPEN ->
    let s1 := fst (step cfg s (EvData h)) in
    healthCheckWaitResponse s1 = false
    /\ step cfg s1 EvHcGrace = (s1, [])
    /\ step cfg s1 EvTimeout = (s1, [AWrite HEALTHCHECK_CMD]).
Proof.
  intros cfg s h Hex Hg s1.
  destruct (step_data_facts cfg s h Hex) as [Hx1 [Hh1 Hg1]].
  fold s1 in Hx1, Hh1, Hg1.
  assert (Hn : GateState_eqb (gateState s1) OPEN = false).
  { destruct Hg1 as [-> | ->]; [|reflexivity].
    destruct (gateState s); [reflexivity | reflexivity | contradiction | reflexivity]. }
  split; [exact Hh1|].
  split; unfold step; rewrite Hx1; cbv beta iota zeta; rewrite ?Hn, Hh1; reflexivity.
Qed.

Lemma data_clears_pending_healthcheck_witness :
  step cfg_default
    (fst (step cfg_default (set_hc (initSession cfg_default) true)
            (EvData "cf0000500000"%string))) EvTimeout
  = (fst (step cfg_default (set_hc (initSession cfg_default) true)
            (EvData "cf0000500000"%string)),
     [AWrite HEALTHCHECK_CMD]).
Proof.
  destruct (data_clears_pending_healthcheck cfg_default
              (set_hc (initSession cfg_default) true) "cf0000500000"%string)
    as [_ [_ H]]; [reflexivity | discriminate |].
  exact H.
Defined.

Lemma all_chars_substring p n m s :
  all_chars p s = true -> all_chars p (substring n m s) = true.
Proof.
  revert n m. induction s as [|c s IH]; intros n m H.
  - destruct n, m; reflexivity.
  - simpl in H. apply andb_prop in H as [Hc Hs].
    destruct n as [|n]; simpl.
    + destruct m as [|m]; simpl; [reflexivity|]. rewrite Hc. apply IH. exact Hs.
    + apply IH. exact Hs.
Qed.

Lemma strip_hex_fixed s : all_chars isHexChar s = true -> stripNonHex s = s.
Proof.
  induction s as [|c s IH]; simpl; intros H; [reflexivity|].
  apply andb_prop in H as [Hc Hs]. rewrite Hc, IH by exact Hs. reflexivity.
Qed.

Lemma toUpper_hex_upper s :
  all_chars isHexChar s = true -> all_chars isUpperHexChar (toUpperCase s) = true.
Proof.
  induction s as [|c s IH]; simpl; intros H; [reflexivity|].
  apply andb_prop in H as [Hc Hs].
  rewrite hex_toUpper_upper by exact Hc. apply IH. exact Hs.
Qed.

Lemma toUpper_length s : String.length (toUpperCase s) = String.length s.
Proof. induction s as [|c s IH]; simpl; [reflexivity|]. rewrite IH. reflexivity. Qed.

Lemma classify_tag_read h :
  String.prefix "cf00000112" h = true -> (13 <= String.length h)%nat ->
  classify h = TagRead ("0" ++ substring (String.length h - 13) 9 h)%string.
Proof.
  intros Hp Hl. destruct (prefix_app_eq _ _ Hp) as [r Hr].
  unfold classify.
  assert (H1 : String.prefix "cf000050" h = false) by (rewrite Hr; reflexivity).
  assert (H2 : String.prefix "cf000073" h = false) by (rewrite Hr; reflexivity).
  assert (H3 : String.prefix "cf000077020001" h = false) by (rewrite Hr; reflexivity).
  assert (H4 : String.prefix "cf00007703" h = false) by (rewrite Hr; reflexivity).
  rewrite H1, H2, H3, H4, Hp. do 2 f_equal. clear H1 H2 H3 H4 Hr Hp.
  unfold js_slice.
  set (n := String.length h) in *.
  destruct (Z.ltb_spec (-13) 0); [|lia].
  destruct (Z.ltb_spec (-4) 0); [|lia].
  rewrite !Z.max_l by lia.
  destruct (Z.ltb_spec (Z.of_nat n + -13) (Z.of_nat n + -4)); [|lia].
  f_equal; lia.
Qed.

(** X18: a tag-read frame of at least 13 hexadecimal characters (what
    [data.toString("hex")] produces) yields an identifier that sanitizing
    only upper-cases and that passes the format check: such a read is
    never rejected by [validateTag] for its format. *)
Theorem hex_tag_read_passes_format :
  forall h : string,
    String.prefix "cf00000112" h = true ->
    (13 <= String.length h)%nat ->
    all_chars isHexChar h = true ->
    exists t, classify h = TagRead t
      /\ sanitizeTag t = toUpperCase t
      /\ isValidTagFormat (sanitizeTag t) = true.
Proof.
  intros h Hp Hl Hh.
  set (t := ("0" ++ substring (String.length h - 13) 9 h)%string).
  assert (Ht : all_chars isHexChar t = true).
  { subst t. simpl. apply all_chars_substring. exact Hh. }
  assert (Hlen : String.length t = 10%nat).
  { subst t. simpl. f_equal. apply substring_length. lia. }
  exists t. split; [apply classify_tag_read; assumption|].
  assert (Hs : sanitizeTag t = toUpperCase t).
  { unfold sanitizeTag. rewrite strip_hex_fixed by exact Ht. reflexivity. }
  split; [exact Hs|].
  rewrite Hs. unfold isValidTagFormat.
  rewrite toUpper_hex_upper by exact Ht. rewrite toUpper_length, Hlen.
  reflexivity.
Qed.

Lemma hex_tag_read_passes_format_witness :
  exists t, classify TAG_FRAME = TagRead t
    /\ sanitizeTag t = toUpperCase t
    /\ isValidTagFormat (sanitizeTag t) = true.
Proof.
  apply hex_tag_read_passes_format; vm_compute; first [reflexivity | lia].
Defined.

(** X19: a truncated tag-read frame of 10 or 12 characters (the prefix
    and at most one more byte) still counts as a tag read; the slice then
    falls inside the prefix and gives an identifier of 7 or 9 characters,
    which [validateTag] rejects as malformed without calling the service
    and without touching the validator. *)
Theorem short_tag_frame_rejected :
  forall r : string,
    String.length r = 0%nat \/ String.length r = 2%nat ->
    exists t, classify ("cf00000112" ++ r)%string = TagRead t
      /\ forall (now : Z) (resp : VerifyResponse) (tv : TagValidator),
           isValid (result (validateTag t now resp tv)) = false
           /\ apiCalls (validateTag t now resp tv) = 0%nat
           /\ validator (validateTag t now resp tv) = tv.
Proof.
  intros r Hr.
  destruct r as [|a [|b [|c r]]]; simpl in Hr; try lia.
  - exists "0cf0000"%string. split; [reflexivity|].
    intros now resp tv. vm_compute. auto.
  - exists "0cf000001"%string. split; [reflexivity|].
    intros now resp tv. vm_compute. auto.
Qed.

Lemma short_tag_frame_rejected_witness :
  exists t, classify "cf00000112ab"%string = TagRead t
    /\ forall (now : Z) (resp : VerifyResponse) (tv : TagValidator),
         isValid (result (validateTag t now resp tv)) = false
         /\ apiCalls (validateTag t now resp tv) = 0%nat
         /\ validator (validateTag t now resp tv) = tv.
Proof.
  apply (short_tag_frame_rejected "ab"%string). right. reflexivity.
Defined.

End AntennaExtra.
